(** * The posts-and-likes service of [src/app.js]

    A shallow embedding of the six Express handlers of [app.js] together
    with the part of the relational store they talk to (two tables, the
    unique indexes, the foreign key and the auto-increment counters), and
    the properties of the service proved on it.

    Modelling conventions.
    - A table is the list of its rows in rowid order (oldest first).
    - The calls into the ORM are computations in a small monad [M] that
      threads the database, may throw, and records every statement sent to
      the store, so that "no storage access" is a statement about the
      recorded list.
    - A value read from a request (a body field, a query parameter) is a
      [value]: a string or [undefined].  Requests whose body carries a
      number, boolean, null, array or object in a field are outside the
      model; every statement below is about requests with string or absent
      fields.
    - A string is the UTF-8 encoding of the JavaScript string.
    - A JavaScript number is the integer it denotes; [parseInt] rounds to
      the nearest double as the language does.
    - The [createdAt]/[updatedAt] columns, which no handler reads, are left
      out. *)

From Stdlib Require Import ZArith List String Ascii Bool Lia Permutation Sorted.
Import ListNotations.

Local Open Scope string_scope.
Local Open Scope list_scope.
Local Open Scope Z_scope.

(** ** Rows and tables (app.js, section 2) *)

(** [Post]: columns [id], [post_str_id] (unique), [content]. *)
Record Post : Type := mkPost
  { Post_id : Z;
    post_str_id : string;
    content : string }.

(** [Like]: columns [id], [user_id_str] and the foreign key [PostId] added by
    [Post.hasMany(Like)]; unique index on ([user_id_str], [PostId]). *)
Record Like : Type := mkLike
  { Likes_id : Z;
    user_id_str : string;
    PostId : Z }.

(** The database: both tables and the two AUTOINCREMENT counters (the largest
    rowid ever handed out, so that a key is never used again). *)
Record db : Type := mkDb
  { posts : list Post;
    likes : list Like;
    posts_seq : Z;
    likes_seq : Z }.

(** The state after [sequelize.sync()] on the in-memory store. *)
Definition empty_db : db := mkDb [] [] 0 0.

(** ** JavaScript values of the request *)

Inductive value : Type :=
| undefined
| Str (s : string).

(** [!v] is [negb (truthy v)]: [undefined] and the empty string are falsy. *)
Definition truthy (v : value) : bool :=
  match v with
  | undefined => false
  | Str s => negb (s =? "")%string
  end.

Definition ToString (v : value) : string :=
  match v with
  | undefined => "undefined"
  | Str s => s
  end.

(** *** [parseInt(v, 10)] *)

(** The value of a byte of a string. *)
Definition char_code (c : ascii) : Z := Z.of_nat (nat_of_ascii c).

(** The white space of one byte: TAB, LF, VT, FF, CR and SP. *)
Definition is_white_space (c : ascii) : bool :=
  let n := char_code c in
  (n =? 32) || ((9 <=? n) && (n <=? 13)).

(** The white space of two bytes: U+00A0. *)
Definition is_white_space2 (c1 c2 : ascii) : bool :=
  (char_code c1 =? 194) && (char_code c2 =? 160).

(** The white space of three bytes: U+1680, U+2000 to U+200A, U+2028,
    U+2029, U+202F, U+205F, U+3000 and U+FEFF. *)
Definition is_white_space3 (c1 c2 c3 : ascii) : bool :=
  let n1 := char_code c1 in
  let n2 := char_code c2 in
  let n3 := char_code c3 in
  ((n1 =? 225) && (n2 =? 154) && (n3 =? 128))
  || ((n1 =? 226) && (n2 =? 128)
      && (((128 <=? n3) && (n3 <=? 138)) || (n3 =? 168) || (n3 =? 169)
          || (n3 =? 175)))
  || ((n1 =? 226) && (n2 =? 129) && (n3 =? 159))
  || ((n1 =? 227) && (n2 =? 128) && (n3 =? 128))
  || ((n1 =? 239) && (n2 =? 187) && (n3 =? 191)).

(** Drop the leading white space and line terminators. *)
Fixpoint trim_start (s : string) : string :=
  match s with
  | String c1 r1 =>
      if is_white_space c1 then trim_start r1
      else
        match r1 with
        | String c2 r2 =>
            if is_white_space2 c1 c2 then trim_start r2
            else
              match r2 with
              | String c3 r3 =>
                  if is_white_space3 c1 c2 c3 then trim_start r3 else s
              | EmptyString => s
              end
        | EmptyString => s
        end
  | EmptyString => s
  end.

Definition digit_of (c : ascii) : option Z :=
  let n := char_code c in
  if (48 <=? n) && (n <=? 57) then Some (n - 48) else None.

(** The longest prefix of decimal digits, read as a number; [None] (NaN) when
    the prefix is empty. *)
Fixpoint digits (s : string) (acc : option Z) : option Z :=
  match s with
  | String c r =>
      match digit_of c with
      | Some d =>
          digits r (Some (10 * match acc with Some a => a | None => 0 end + d))
      | None => acc
      end
  | EmptyString => acc
  end.

(** The number value of an integer: the nearest double, ties going to the
    even significand of 53 bits.  An integer that overflows the doubles
    (Infinity) comes out as 2^1024 or more. *)
Definition to_Number (n : Z) : Z :=
  let a := Z.abs n in
  if a <? 2 ^ 53 then n
  else
    let e := Z.log2 a - 52 in
    let q := a / 2 ^ e in
    let r := a mod 2 ^ e in
    let q' :=
      if (2 ^ e <? 2 * r) || ((2 * r =? 2 ^ e) && Z.odd q) then q + 1 else q in
    Z.sgn n * (q' * 2 ^ e).

(** [None] stands for NaN. *)
Definition parseInt (v : value) : option Z :=
  option_map to_Number
    match trim_start (ToString v) with
    | String "-" r => option_map Z.opp (digits r None)
    | String "+" r => digits r None
    | s => digits s None
    end.

(** [x || d] on numbers: NaN and 0 are falsy. *)
Definition or_default (x : option Z) (d : Z) : Z :=
  match x with
  | None => d
  | Some 0 => d
  | Some n => n
  end.

(** ** The store monad *)

Inductive table : Type := posts_table | likes_table.

(** One statement sent to the store. *)
Inductive access : Type :=
| SELECT (t : table)
| INSERT (t : table)
| DELETE (t : table).

Definition is_write (a : access) : bool :=
  match a with
  | SELECT _ => false
  | _ => true
  end.

Inductive error : Type :=
| UniqueConstraintError
| ForeignKeyConstraintError
| InvalidWhereValue
| NotNullViolation
| TypeError
| SQLITE_MISMATCH
| SQLITE_ERROR.

Definition message (e : error) : string :=
  match e with
  | UniqueConstraintError => "Validation error"
  | ForeignKeyConstraintError => "SQLITE_CONSTRAINT: FOREIGN KEY constraint failed"
  | InvalidWhereValue => "WHERE parameter has invalid undefined value"
  | NotNullViolation => "notNull Violation"
  | TypeError => "Cannot read properties of null"
  | SQLITE_MISMATCH => "SQLITE_MISMATCH: datatype mismatch"
  | SQLITE_ERROR => "SQLITE_ERROR: no such column: Infinity"
  end.

(** A computation on the store: the outcome, the database afterwards and the
    statements issued, oldest first. *)
Definition M (A : Type) : Type := db -> (error + A) * db * list access.

Definition ret {A} (a : A) : M A := fun s => (inr a, s, []).

Definition throw {A} (e : error) : M A := fun s => (inl e, s, []).

Definition bind {A B} (m : M A) (f : A -> M B) : M B :=
  fun s =>
    match m s with
    | (inl e, s1, w1) => (inl e, s1, w1)
    | (inr a, s1, w1) =>
        match f a s1 with
        | (r, s2, w2) => (r, s2, w1 ++ w2)
        end
    end.

(** [try { m } catch (error) { h error }] *)
Definition try_catch {A} (m : M A) (h : error -> M A) : M A :=
  fun s =>
    match m s with
    | (inl e, s1, w1) =>
        match h e s1 with
        | (r, s2, w2) => (r, s2, w1 ++ w2)
        end
    | (inr a, s1, w1) => (inr a, s1, w1)
    end.

Declare Scope db_scope.
Delimit Scope db_scope with db.
Notation "x <- m ;; k" := (bind m (fun x => k))
  (at level 61, m at next level, right associativity) : db_scope.
Notation "' p <- m ;; k" := (bind m (fun x => match x with p => k end))
  (at level 61, p pattern, m at next level, right associativity) : db_scope.
Local Open Scope db_scope.

(** The statement [a] evaluating [f] on the current database. *)
Definition query {A} (a : access) (f : db -> A) : M A :=
  fun s => (inr (f s), s, [a]).

(** A value used in a [where] clause: the ORM rejects [undefined]. *)
Definition where_value (v : value) : M string :=
  match v with
  | Str s => ret s
  | undefined => throw InvalidWhereValue
  end.

(** A value stored in a NOT NULL column. *)
Definition column_value (v : value) : M string :=
  match v with
  | Str s => ret s
  | undefined => throw NotNullViolation
  end.

(** ** The statements of the store *)

Definition post_by_str_id (sid : string) (s : db) : option Post :=
  find (fun p => (post_str_id p =? sid)%string) (posts s).

Definition like_matches (u : string) (pid : Z) (l : Like) : bool :=
  (user_id_str l =? u)%string && (PostId l =? pid).

Definition like_by_user_post (u : string) (pid : Z) (s : db) : option Like :=
  find (like_matches u pid) (likes s).

(** [INSERT INTO posts]: the UNIQUE constraint on [post_str_id] is checked,
    the key is the next value of the counter. *)
Definition insert_post (sid c : string) : M Post :=
  fun s =>
    match post_by_str_id sid s with
    | Some _ => (inl UniqueConstraintError, s, [INSERT posts_table])
    | None =>
        let p := mkPost (posts_seq s + 1) sid c in
        (inr p,
         mkDb (posts s ++ [p]) (likes s) (posts_seq s + 1) (likes_seq s),
         [INSERT posts_table])
    end.

(** [INSERT INTO likes]: the unique index on ([user_id_str], [PostId]) and
    the foreign key to [posts] are checked. *)
Definition insert_like (u : string) (pid : Z) : M Like :=
  fun s =>
    match like_by_user_post u pid s with
    | Some _ => (inl UniqueConstraintError, s, [INSERT likes_table])
    | None =>
        if existsb (fun p => Post_id p =? pid) (posts s) then
          let l := mkLike (likes_seq s + 1) u pid in
          (inr l,
           mkDb (posts s) (likes s ++ [l]) (posts_seq s) (likes_seq s + 1),
           [INSERT likes_table])
        else (inl ForeignKeyConstraintError, s, [INSERT likes_table])
    end.

(** [DELETE FROM likes WHERE user_id_str = u AND PostId = pid], returning the
    number of rows removed. *)
Definition delete_likes (u : string) (pid : Z) : M Z :=
  fun s =>
    (inr (Z.of_nat (List.length (filter (like_matches u pid) (likes s)))),
     mkDb (posts s)
          (filter (fun l => negb (like_matches u pid l)) (likes s))
          (posts_seq s) (likes_seq s),
     [DELETE likes_table]).

(** [SELECT COUNT(...) FROM likes WHERE PostId = pid] *)
Definition count_likes_of (pid : Z) (s : db) : Z :=
  Z.of_nat (List.length (filter (fun l => PostId l =? pid) (likes s))).

(** *** Joins, grouping, ordering and LIMIT *)

(** [posts AS Post LEFT OUTER JOIN likes AS Likes ON Post.id = Likes.PostId]:
    one row per matching pair, and a row with NULL like columns for a post
    that no like matches.  The outer table is scanned in rowid order. *)
Definition left_outer_join (ps : list Post) (ls : list Like)
  : list (Post * option Like) :=
  flat_map
    (fun p =>
       match filter (fun l => PostId l =? Post_id p) ls with
       | [] => [(p, None)]
       | ms => map (fun l => (p, Some l)) ms
       end)
    ps.

(** [COUNT(Likes.id)] counts the rows whose [Likes.id] is not NULL. *)
Definition count_Likes_id (r : Post * option Like) : Z :=
  match snd r with
  | Some _ => 1
  | None => 0
  end.

(** One step of [GROUP BY Post.id]: the row joins the group with its
    [Post.id] or opens a new group after the existing ones. *)
Fixpoint add_to_group (r : Post * option Like) (gs : list (Post * Z))
  : list (Post * Z) :=
  match gs with
  | [] => [(fst r, count_Likes_id r)]
  | (p, n) :: gs' =>
      if Post_id p =? Post_id (fst r)
      then (p, n + count_Likes_id r) :: gs'
      else (p, n) :: add_to_group r gs'
  end.

Definition group_by_Post_id (rows : list (Post * option Like))
  : list (Post * Z) :=
  fold_left (fun gs r => add_to_group r gs) rows [].

(** A stable sort: [x] goes before the first element it is [le] to. *)
Fixpoint insert_by {A} (le : A -> A -> bool) (x : A) (l : list A) : list A :=
  match l with
  | [] => [x]
  | y :: l' => if le x y then x :: l else y :: insert_by le x l'
  end.

Fixpoint sort_by {A} (le : A -> A -> bool) (l : list A) : list A :=
  match l with
  | [] => []
  | x :: l' => insert_by le x (sort_by le l')
  end.

(** [ORDER BY like_count DESC]; rows with equal counts keep the order of the
    groups, as the store's sorter does. *)
Definition order_by_like_count_desc (gs : list (Post * Z)) : list (Post * Z) :=
  sort_by (fun a b => snd b <=? snd a) gs.

(** [LIMIT n]: a negative [n] puts no bound on the number of rows; otherwise
    the first [n] rows are returned, all of them when there are fewer. *)
Definition sql_limit {A} (n : Z) (l : list A) : list A :=
  if n <? 0 then l
  else firstn (Z.to_nat (Z.min n (Z.of_nat (List.length l)))) l.

(** The shortest decimal that reads back as the double [d], for [0 < d]:
    the multiple of the highest power of ten, from [10 ^ j] down, that
    rounds to [d], the nearer one when two do. *)
Fixpoint shortest_decimal (j : nat) (d : Z) : Z :=
  match j with
  | O => d
  | S j' =>
      let p := 10 ^ Z.of_nat j in
      let lo := d / p * p in
      let hi := lo + p in
      let ok_lo := to_Number lo =? d in
      let ok_hi := to_Number hi =? d in
      if ok_lo && ok_hi then (if d - lo <=? hi - d then lo else hi)
      else if ok_lo then lo
      else if ok_hi then hi
      else shortest_decimal j' d
  end.

(** The integer the store reads in the [LIMIT] the ORM writes: the ORM
    writes the number with [toString], the number itself up to 2^53 and the
    shortest decimal that reads back as the same double above. *)
Definition limit_literal (limit : Z) : Z :=
  if Z.abs limit <=? 2 ^ 53 then limit
  else Z.sgn limit * shortest_decimal 20 (Z.abs limit).

(** The store takes a [LIMIT] that is a 64-bit integer: the doubles strictly
    between -2^63 and 2^63. *)
Definition limit_accepted (limit : Z) : bool :=
  (- 2 ^ 63 <? limit) && (limit <? 2 ^ 63).

(** The statement built by [Post.findAll] in [GET /posts/top]. *)
Definition top_query (limit : Z) (s : db) : list (Post * Z) :=
  sql_limit limit
    (order_by_like_count_desc
       (group_by_Post_id (left_outer_join (posts s) (likes s)))).

(** [SELECT ... FROM likes AS Like LEFT OUTER JOIN posts AS Post
     ON Like.PostId = Post.id WHERE Like.user_id_str = u].
    The store answers the [WHERE] through the unique index on
    ([user_id_str], [PostId]) that the [Like] model declares, so the rows of
    one user come out in the order of that index: ascending [PostId]. *)
Definition likes_of_user (u : string) (s : db) : list Like :=
  sort_by (fun a b => PostId a <=? PostId b)
          (filter (fun l => (user_id_str l =? u)%string) (likes s)).

Definition owning_Post (s : db) (l : Like) : option Post :=
  find (fun p => Post_id p =? PostId l) (posts s).

Definition user_likes_query (u : string) (s : db) : list (Like * option Post) :=
  map (fun l => (l, owning_Post s l)) (likes_of_user u s).

(** ** The ORM calls used by the handlers *)

(** [Post.findOne({ where: { post_str_id } })] *)
Definition Post_findOne (sid : value) : M (option Post) :=
  k <- where_value sid ;;
  query (SELECT posts_table) (post_by_str_id k).

(** [Post.findOrCreate({ where: { post_str_id }, defaults: { content } })]:
    look the row up; create it when there is none; when the creation hits
    the unique constraint, look the row up again. *)
Definition Post_findOrCreate (sid c : value) : M (Post * bool) :=
  found <- Post_findOne sid ;;
  match found with
  | Some post => ret (post, false)
  | None =>
      try_catch
        (k <- where_value sid ;;
         text <- column_value c ;;
         post <- insert_post k text ;;
         ret (post, true))
        (fun e =>
           match e with
           | UniqueConstraintError =>
               other <- Post_findOne sid ;;
               match other with
               | Some post => ret (post, false)
               | None => throw e
               end
           | _ => throw e
           end)
  end.

(** [Like.findOne({ where: { user_id_str, PostId } })] *)
Definition Like_findOne (u : value) (pid : Z) : M (option Like) :=
  k <- where_value u ;;
  query (SELECT likes_table) (like_by_user_post k pid).

(** [Like.findOrCreate({ where: { user_id_str, PostId } })] *)
Definition Like_findOrCreate (u : value) (pid : Z) : M (Like * bool) :=
  found <- Like_findOne u pid ;;
  match found with
  | Some like => ret (like, false)
  | None =>
      try_catch
        (k <- where_value u ;;
         like <- insert_like k pid ;;
         ret (like, true))
        (fun e =>
           match e with
           | UniqueConstraintError =>
               other <- Like_findOne u pid ;;
               match other with
               | Some like => ret (like, false)
               | None => throw e
               end
           | _ => throw e
           end)
  end.

(** [Like.destroy({ where: { user_id_str, PostId } })] *)
Definition Like_destroy (u : value) (pid : Z) : M Z :=
  k <- where_value u ;;
  delete_likes k pid.

(** [post.countLikes()] *)
Definition countLikes (post : Post) : M Z :=
  query (SELECT likes_table) (count_likes_of (Post_id post)).

(** [Post.findAll({ ..., group, order, limit, subQuery: false })]: the
    statement fails when the store does not take the limit, with a datatype
    mismatch, or with an unknown column when the number is Infinity. *)
Definition Post_findAll_top (limit : Z) : M (list (Post * Z)) :=
  if limit_accepted limit then
    query (SELECT posts_table) (top_query (limit_literal limit))
  else
    fun s =>
      (inl (if Z.abs limit <? 2 ^ 1024 then SQLITE_MISMATCH else SQLITE_ERROR),
       s, [SELECT posts_table]).

(** [Like.findAll({ where: { user_id_str }, include: [Post] })] *)
Definition Like_findAll (u : value) : M (list (Like * option Post)) :=
  k <- where_value u ;;
  query (SELECT likes_table) (user_likes_query k).

(** ** Responses *)

Inductive json : Type :=
| error_json (error : string) (details : option string)
| created_json (internal_db_id : Z) (post_str_id : string) (status : string)
| status_json (status : string)
| count_json (post_str_id : string) (like_count : Z)
| top_json (items : list (string * Z))
| liked_json (items : list string).

Record response : Type := res
  { status : Z;
    body : json }.

Definition internal_error (e : error) : M response :=
  ret (res 500 (error_json "Internal server error" (Some (message e)))).

(** [a.map(f)] where [f] may throw. *)
Fixpoint mapM {A B} (f : A -> M B) (l : list A) : M (list B) :=
  match l with
  | [] => ret []
  | x :: l' => y <- f x ;; ys <- mapM f l' ;; ret (y :: ys)
  end.

(** ** The handlers (app.js, section 4) *)

(** [POST /posts] *)
Definition create_post (body_post_str_id body_content : value) : M response :=
  if negb (truthy body_post_str_id) || negb (truthy body_content) then
    ret (res 400 (error_json "Invalid input" None))
  else
    try_catch
      ('(post, created) <- Post_findOrCreate body_post_str_id body_content ;;
       if negb created then
         ret (res 409 (error_json "Post with this ID already exists" None))
       else
         ret (res 201 (created_json (Post_id post) (post_str_id post)
                                    "created")))
      internal_error.

(** [POST /posts/:post_str_id/like] *)
Definition like_post (params_post_str_id : string) (body_user_id_str : value)
  : M response :=
  try_catch
    (post <- Post_findOne (Str params_post_str_id) ;;
     match post with
     | None => ret (res 404 (error_json "Post not found" None))
     | Some post =>
         if negb (truthy body_user_id_str) then
           ret (res 400 (error_json "User ID is required" None))
         else
           '(like, created) <- Like_findOrCreate body_user_id_str (Post_id post) ;;
           if negb created then ret (res 200 (status_json "already_liked"))
           else ret (res 201 (status_json "liked"))
     end)
    internal_error.

(** [GET /posts/:post_str_id/likes] *)
Definition get_likes (params_post_str_id : string) : M response :=
  try_catch
    (post <- Post_findOne (Str params_post_str_id) ;;
     match post with
     | None => ret (res 404 (error_json "Post not found" None))
     | Some post =>
         likeCount <- countLikes post ;;
         ret (res 200 (count_json (post_str_id post) likeCount))
     end)
    internal_error.

(** [DELETE /posts/:post_str_id/like] *)
Definition unlike_post (params_post_str_id : string) (body_user_id_str : value)
  : M response :=
  try_catch
    (post <- Post_findOne (Str params_post_str_id) ;;
     match post with
     | None => ret (res 404 (error_json "Post not found" None))
     | Some post =>
         if negb (truthy body_user_id_str) then
           ret (res 400 (error_json "User ID is required" None))
         else
           deletedCount <- Like_destroy body_user_id_str (Post_id post) ;;
           if deletedCount =? 0 then
             ret (res 200 (status_json "not_liked_previously"))
           else ret (res 200 (status_json "unliked"))
     end)
    internal_error.

(** The [limit] of [GET /posts/top]: [parseInt(req.query.limit, 10) || 5]. *)
Definition top_limit (query_limit : value) : Z :=
  or_default (parseInt query_limit) 5.

(** [GET /posts/top]; [COUNT] yields a non-negative integer, on which the
    [parseInt(..., 10)] of the result mapping is the identity. *)
Definition top_posts (query_limit : value) : M response :=
  let limit := top_limit query_limit in
  try_catch
    (topPosts <- Post_findAll_top limit ;;
     let result := map (fun r => (post_str_id (fst r), snd r)) topPosts in
     ret (res 200 (top_json result)))
    internal_error.

(** [GET /users/:user_id_str/liked-posts]; [like.Post] is null when the join
    found no post, and reading a property of null throws. *)
Definition liked_posts (params_user_id_str : string) : M response :=
  try_catch
    (userLikes <- Like_findAll (Str params_user_id_str) ;;
     likedPostIds <-
       mapM (fun like =>
               match snd like with
               | Some post => ret (post_str_id post)
               | None => throw TypeError
               end)
            userLikes ;;
     ret (res 200 (liked_json likedPostIds)))
    internal_error.

(** ** Requests and reachable states *)

Inductive request : Type :=
| POST_posts (post_str_id content : value)
| POST_like (post_str_id : string) (user_id_str : value)
| GET_likes (post_str_id : string)
| DELETE_like (post_str_id : string) (user_id_str : value)
| GET_top (limit : value)
| GET_liked_posts (user_id_str : string).

Definition handle (r : request) : M response :=
  match r with
  | POST_posts sid c => create_post sid c
  | POST_like sid u => like_post sid u
  | GET_likes sid => get_likes sid
  | DELETE_like sid u => unlike_post sid u
  | GET_top limit => top_posts limit
  | GET_liked_posts u => liked_posts u
  end.

(** The database a computation leaves behind. *)
Definition db_after {A} (m : M A) (s : db) : db := snd (fst (m s)).

(** The outcome of a computation. *)
Definition outcome {A} (m : M A) (s : db) : error + A := fst (fst (m s)).

(** The statements a computation sent to the store. *)
Definition accesses {A} (m : M A) (s : db) : list access := snd (m s).

(** Serving a sequence of requests, oldest first. *)
Definition serve (rs : list request) (s : db) : db :=
  fold_left (fun s r => db_after (handle r) s) rs s.

Inductive reachable : db -> Prop :=
| reachable_start : reachable empty_db
| reachable_step : forall s r,
    reachable s -> reachable (db_after (handle r) s).

(** ** Invariants of the store *)

(** The key of the unique index of [likes]. *)
Definition like_key (l : Like) : string * Z := (user_id_str l, PostId l).

(** A user holds at most one like row for a given post. *)
Definition likes_unique (s : db) : Prop := NoDup (map like_key (likes s)).

(** What the schema promises of a database: keys of [posts] handed out in
    increasing order and below the counter, [post_str_id] unique, the pair
    ([user_id_str], [PostId]) unique, every like owned by a stored post. *)
Record db_ok (s : db) : Prop := mk_db_ok
  { ok_Post_id : StronglySorted Z.lt (map Post_id (posts s));
    ok_posts_seq : Forall (fun p => Post_id p <= posts_seq s) (posts s);
    ok_post_str_id : NoDup (map post_str_id (posts s));
    ok_likes_unique : likes_unique s;
    ok_foreign_key :
      Forall (fun l => In (PostId l) (map Post_id (posts s))) (likes s) }.

(** The ways a request can change the database. *)
Inductive transition (s : db) : db -> Prop :=
| transition_none : transition s s
| transition_post : forall sid c,
    post_by_str_id sid s = None ->
    transition s
      (mkDb (posts s ++ [mkPost (posts_seq s + 1) sid c]) (likes s)
            (posts_seq s + 1) (likes_seq s))
| transition_like : forall u pid,
    like_by_user_post u pid s = None ->
    existsb (fun p => Post_id p =? pid) (posts s) = true ->
    transition s
      (mkDb (posts s) (likes s ++ [mkLike (likes_seq s + 1) u pid])
            (posts_seq s) (likes_seq s + 1))
| transition_unlike : forall u pid,
    transition s
      (mkDb (posts s)
            (filter (fun l => negb (like_matches u pid l)) (likes s))
            (posts_seq s) (likes_seq s)).

(** ** Notions used by the statements *)


(** The like rows of a user in insertion (rowid) order. *)
Definition likes_in_insertion_order (u : string) (s : db) : list Like :=
  filter (fun l => (user_id_str l =? u)%string) (likes s).


(** Descending order of [like_count]. *)
Definition like_count_desc (a b : string * Z) : Prop := snd b <= snd a.

(** The candidates of the ranking: every stored post with the number of like
    rows it owns. *)
Definition ranking_candidates (s : db) : list (string * Z) :=
  map (fun p => (post_str_id p, count_likes_of (Post_id p) s)) (posts s).

(** The limit as the specification words it: the parsed integer, and 5 when
    the parameter is absent or does not parse. *)
Definition limit_as_specified (query_limit : value) : Z :=
  match parseInt query_limit with
  | Some n => n
  | None => 5
  end.

(** ** Sample histories *)

(** One post, no likes. *)
Definition one_post_db : db :=
  serve [POST_posts (Str "p1") (Str "hello")] empty_db.

(** Posts A and B created in this order; user u likes B first, then A. *)
Definition liked_B_then_A_db : db :=
  serve [POST_posts (Str "A") (Str "first");
         POST_posts (Str "B") (Str "second");
         POST_like "B" (Str "u");
         POST_like "A" (Str "u")] empty_db.

(** Posts A, B and C; user u likes A and then C, user w likes nothing. *)
Definition liked_A_and_C_db : db :=
  serve [POST_posts (Str "A") (Str "a");
         POST_posts (Str "B") (Str "b");
         POST_posts (Str "C") (Str "c");
         POST_like "A" (Str "u");
         POST_like "C" (Str "u")] empty_db.

(** Posts A, B and C with 3, 1 and 0 likes. *)
Definition likes_3_1_0_db : db :=
  serve [POST_posts (Str "A") (Str "a");
         POST_posts (Str "B") (Str "b");
         POST_posts (Str "C") (Str "c");
         POST_like "A" (Str "u1");
         POST_like "A" (Str "u2");
         POST_like "A" (Str "u3");
         POST_like "B" (Str "u1")] empty_db.

(** Six posts without likes. *)
Definition six_posts_db : db :=
  serve [POST_posts (Str "a") (Str "1");
         POST_posts (Str "b") (Str "2");
         POST_posts (Str "c") (Str "3");
         POST_posts (Str "d") (Str "4");
         POST_posts (Str "e") (Str "5");
         POST_posts (Str "f") (Str "6")] empty_db.


(** The surrogate keys of a table are handed out in increasing order, from 1
    up to the counter of the table. *)
Definition keys_in_order (keys : list Z) (seq : Z) : Prop :=
  0 <= seq /\ StronglySorted Z.lt keys /\ Forall (fun k => 0 < k <= seq) keys.

(** What the validation of the handlers promises of the stored strings. *)
Definition strings_not_empty (s : db) : Prop :=
  Forall (fun p => post_str_id p <> "" /\ content p <> "") (posts s)
  /\ Forall (fun l => user_id_str l <> "") (likes s).

(** * Properties *)

(** ** Lists *)

Section ListFacts.
Context {A : Type}.

Lemma find_none_iff (f : A -> bool) (l : list A) :
  find f l = None <-> forall x, In x l -> f x = false.
Proof.
  split.
  - apply find_none.
  - induction l as [|y l IH]; intros H; simpl; [reflexivity|].
    rewrite (H y (or_introl eq_refl)).
    apply IH. intros x Hx. apply H. now right.
Qed.


Lemma filter_none (f : A -> bool) (l : list A) :
  (forall x, In x l -> f x = false) -> filter f l = [].
Proof.
  induction l as [|y l IH]; intros H; simpl; [reflexivity|].
  rewrite (H y (or_introl eq_refl)). apply IH.
  intros x Hx. apply H. now right.
Qed.

Lemma filter_all (f : A -> bool) (l : list A) :
  (forall x, In x l -> f x = true) -> filter f l = l.
Proof.
  induction l as [|y l IH]; intros H; simpl; [reflexivity|].
  rewrite (H y (or_introl eq_refl)). f_equal. apply IH.
  intros x Hx. apply H. now right.
Qed.

Lemma NoDup_map_filter {B} (g : A -> B) (f : A -> bool) (l : list A) :
  NoDup (map g l) -> NoDup (map g (filter f l)).
Proof.
  induction l as [|y l IH]; simpl; intros H; [constructor|].
  inversion H as [|? ? Hy Hl]; subst.
  destruct (f y); simpl; [constructor|]; auto.
  intros Hin. apply Hy.
  apply in_map_iff in Hin. destruct Hin as [z [Hz Hin]].
  apply filter_In in Hin. apply in_map_iff. exists z. tauto.
Qed.

(** *** The stable insertion sort *)

Variable le : A -> A -> bool.

Lemma insert_by_perm (x : A) (l : list A) :
  Permutation (insert_by le x l) (x :: l).
Proof.
  induction l as [|y l IH]; simpl; [reflexivity|].
  destruct (le x y); [reflexivity|].
  rewrite IH. apply perm_swap.
Qed.

Lemma sort_by_perm (l : list A) : Permutation (sort_by le l) l.
Proof.
  induction l as [|x l IH]; simpl; [reflexivity|].
  rewrite insert_by_perm. now constructor.
Qed.

Hypothesis le_total : forall a b, le a b = false -> le b a = true.
Hypothesis le_trans : forall a b c, le a b = true -> le b c = true -> le a c = true.

Lemma insert_by_sorted (x : A) (l : list A) :
  StronglySorted (fun a b => le a b = true) l ->
  StronglySorted (fun a b => le a b = true) (insert_by le x l).
Proof.
  induction l as [|y l IH]; simpl; intros H.
  - repeat constructor.
  - inversion H as [|? ? Hl Hy]; subst.
    destruct (le x y) eqn:E.
    + constructor; [assumption|]. constructor; [assumption|].
      eapply Forall_impl; [|exact Hy]. intros z Hz. eauto.
    + constructor; [now apply IH|].
      eapply Permutation_Forall; [symmetry; apply insert_by_perm|].
      constructor; auto.
Qed.

Lemma sort_by_sorted (l : list A) :
  StronglySorted (fun a b => le a b = true) (sort_by le l).
Proof.
  induction l as [|x l IH]; simpl; [constructor|].
  now apply insert_by_sorted.
Qed.
End ListFacts.

Lemma In_firstn {A} (n : nat) (l : list A) (x : A) :
  In x (firstn n l) -> In x l.
Proof.
  revert n. induction l as [|y l IH]; intros [|n]; simpl; try tauto.
  intros [E|H]; [now left|right; eauto].
Qed.

Lemma StronglySorted_firstn {A} (R : A -> A -> Prop) (n : nat) (l : list A) :
  StronglySorted R l -> StronglySorted R (firstn n l).
Proof.
  revert n. induction l as [|x l IH]; intros [|n] H; simpl; try constructor.
  - inversion H; subst. now apply IH.
  - inversion H as [|? ? _ Hx]; subst.
    rewrite Forall_forall in *. intros y Hy. apply Hx.
    revert Hy. apply In_firstn.
Qed.

Lemma StronglySorted_map {A B} (R : B -> B -> Prop) (f : A -> B) (l : list A) :
  StronglySorted (fun a b => R (f a) (f b)) l -> StronglySorted R (map f l).
Proof.
  induction 1 as [|x l _ IH Hx]; simpl; constructor; auto.
  rewrite Forall_forall in *. intros y Hy.
  apply in_map_iff in Hy. destruct Hy as [z [<- Hz]]. auto.
Qed.

(** ** The handlers, case by case *)

Lemma truthy_Str (k : string) : k <> "" -> truthy (Str k) = true.
Proof.
  intros H. unfold truthy. now destruct (String.eqb_spec k "").
Qed.

Lemma post_by_str_id_In (sid : string) (s : db) (p : Post) :
  post_by_str_id sid s = Some p -> In p (posts s) /\ post_str_id p = sid.
Proof.
  intros H. apply find_some in H. destruct H as [H1 H2].
  now apply String.eqb_eq in H2.
Qed.


Lemma Post_id_stored (s : db) (p : Post) :
  In p (posts s) -> existsb (fun q => Post_id q =? Post_id p) (posts s) = true.
Proof.
  intros H. apply existsb_exists. exists p. split; [assumption|apply Z.eqb_refl].
Qed.

Lemma like_by_user_post_absent (u : string) (pid : Z) (s : db) :
  ~ In (u, pid) (map like_key (likes s)) <-> like_by_user_post u pid s = None.
Proof.
  unfold like_by_user_post. rewrite find_none_iff. split.
  - intros H l Hl. unfold like_matches.
    destruct (String.eqb_spec (user_id_str l) u); [|reflexivity].
    destruct (Z.eqb_spec (PostId l) pid); [|reflexivity].
    exfalso. apply H. apply in_map_iff. exists l. unfold like_key.
    split; [congruence|assumption].
  - intros H Hin. apply in_map_iff in Hin. destruct Hin as [l [E Hl]].
    specialize (H l Hl). unfold like_key in E. inversion E; subst.
    unfold like_matches in H. now rewrite String.eqb_refl, Z.eqb_refl in H.
Qed.

Ltac run_handler :=
  cbv [create_post like_post unlike_post get_likes top_posts liked_posts
       Post_findOrCreate Like_findOrCreate Post_findOne Like_findOne
       Like_destroy countLikes Post_findAll_top Like_findAll internal_error
       where_value column_value query insert_post insert_like delete_likes
       try_catch bind ret throw].

(** Unfold a handler and follow the branches the hypotheses select. *)
Ltac follow :=
  run_handler;
  repeat (cbv beta iota;
          match goal with
          | H : ?x <> EmptyString |- context [truthy (Str ?x)] =>
              rewrite (truthy_Str x H); cbn [negb]
          | H : _ = _ |- _ => rewrite H
          end);
  cbv beta iota.

Lemma create_post_invalid (a b : value) (s : db) :
  truthy a = false \/ truthy b = false ->
  create_post a b s = (inr (res 400 (error_json "Invalid input" None)), s, []).
Proof.
  intros H. unfold create_post.
  replace (negb (truthy a) || negb (truthy b)) with true; [reflexivity|].
  destruct H as [-> | ->]; simpl; [reflexivity|]. now rewrite orb_true_r.
Qed.

Lemma create_post_new (sid c : string) (s : db) :
  sid <> "" -> c <> "" -> post_by_str_id sid s = None ->
  create_post (Str sid) (Str c) s =
    (inr (res 201 (created_json (posts_seq s + 1) sid "created")),
     mkDb (posts s ++ [mkPost (posts_seq s + 1) sid c]) (likes s)
          (posts_seq s + 1) (likes_seq s),
     [SELECT posts_table; INSERT posts_table]).
Proof.
  intros Hs Hc Hn. unfold create_post.
  rewrite (truthy_Str _ Hs), (truthy_Str _ Hc). cbn [negb orb].
  follow. reflexivity.
Qed.

Lemma create_post_old (sid c : string) (s : db) (p : Post) :
  sid <> "" -> c <> "" -> post_by_str_id sid s = Some p ->
  create_post (Str sid) (Str c) s =
    (inr (res 409 (error_json "Post with this ID already exists" None)),
     s, [SELECT posts_table]).
Proof.
  intros Hs Hc Hn. unfold create_post.
  rewrite (truthy_Str _ Hs), (truthy_Str _ Hc). cbn [negb orb].
  follow. reflexivity.
Qed.

Lemma like_post_not_found (sid : string) (u : value) (s : db) :
  post_by_str_id sid s = None ->
  like_post sid u s =
    (inr (res 404 (error_json "Post not found" None)), s, [SELECT posts_table]).
Proof. intros Hn. follow. reflexivity. Qed.

Lemma like_post_no_user (sid : string) (u : value) (s : db) (p : Post) :
  post_by_str_id sid s = Some p -> truthy u = false ->
  like_post sid u s =
    (inr (res 400 (error_json "User ID is required" None)), s,
     [SELECT posts_table]).
Proof. intros Hp Hu. follow. reflexivity. Qed.

Lemma like_post_already (sid u : string) (s : db) (p : Post) (l : Like) :
  post_by_str_id sid s = Some p -> u <> "" ->
  like_by_user_post u (Post_id p) s = Some l ->
  like_post sid (Str u) s =
    (inr (res 200 (status_json "already_liked")), s,
     [SELECT posts_table; SELECT likes_table]).
Proof.
  intros Hp Hu Hl. follow. reflexivity.
Qed.

Lemma like_post_new (sid u : string) (s : db) (p : Post) :
  post_by_str_id sid s = Some p -> u <> "" ->
  like_by_user_post u (Post_id p) s = None ->
  like_post sid (Str u) s =
    (inr (res 201 (status_json "liked")),
     mkDb (posts s) (likes s ++ [mkLike (likes_seq s + 1) u (Post_id p)])
          (posts_seq s) (likes_seq s + 1),
     [SELECT posts_table; SELECT likes_table; INSERT likes_table]).
Proof.
  intros Hp Hu Hl.
  pose proof (Post_id_stored s p (proj1 (post_by_str_id_In _ _ _ Hp))) as Hfk.
  follow. reflexivity.
Qed.

Lemma unlike_post_not_found (sid : string) (u : value) (s : db) :
  post_by_str_id sid s = None ->
  unlike_post sid u s =
    (inr (res 404 (error_json "Post not found" None)), s, [SELECT posts_table]).
Proof. intros Hn. follow. reflexivity. Qed.

Lemma unlike_post_no_user (sid : string) (u : value) (s : db) (p : Post) :
  post_by_str_id sid s = Some p -> truthy u = false ->
  unlike_post sid u s =
    (inr (res 400 (error_json "User ID is required" None)), s,
     [SELECT posts_table]).
Proof. intros Hp Hu. follow. reflexivity. Qed.

Lemma unlike_post_found (sid u : string) (s : db) (p : Post) :
  post_by_str_id sid s = Some p -> u <> "" ->
  unlike_post sid (Str u) s =
    (inr (res 200
            (status_json
               (if Z.of_nat (List.length (filter (like_matches u (Post_id p))
                                                 (likes s))) =? 0
                then "not_liked_previously" else "unliked"))),
     mkDb (posts s)
          (filter (fun l => negb (like_matches u (Post_id p) l)) (likes s))
          (posts_seq s) (likes_seq s),
     [SELECT posts_table; DELETE likes_table]).
Proof.
  intros Hp Hu. follow. now destruct (Z.of_nat _ =? 0).
Qed.

Lemma get_likes_not_found (sid : string) (s : db) :
  post_by_str_id sid s = None ->
  get_likes sid s =
    (inr (res 404 (error_json "Post not found" None)), s, [SELECT posts_table]).
Proof. intros Hn. follow. reflexivity. Qed.

Lemma get_likes_found (sid : string) (s : db) (p : Post) :
  post_by_str_id sid s = Some p ->
  get_likes sid s =
    (inr (res 200 (count_json (post_str_id p) (count_likes_of (Post_id p) s))),
     s, [SELECT posts_table; SELECT likes_table]).
Proof. intros Hp. follow. reflexivity. Qed.

Lemma top_posts_eq (v : value) (s : db) :
  limit_accepted (top_limit v) = true ->
  top_posts v s =
    (inr (res 200
            (top_json (map (fun r => (post_str_id (fst r), snd r))
                           (top_query (limit_literal (top_limit v)) s)))),
     s, [SELECT posts_table]).
Proof.
  intros H. cbv [top_posts Post_findAll_top try_catch bind query ret].
  rewrite H. reflexivity.
Qed.

Lemma top_posts_rejected (v : value) (s : db) :
  limit_accepted (top_limit v) = false ->
  exists e,
    top_posts v s =
      (inr (res 500 (error_json "Internal server error" (Some (message e)))),
       s, [SELECT posts_table]).
Proof.
  intros H.
  cbv [top_posts Post_findAll_top try_catch bind query ret internal_error].
  rewrite H. eexists. reflexivity.
Qed.

Lemma limit_accepted_iff (n : Z) :
  limit_accepted n = true <-> Z.abs n < 2 ^ 63.
Proof.
  unfold limit_accepted.
  assert (H63 : 2 ^ 63 = 9223372036854775808) by reflexivity.
  rewrite H63, andb_true_iff, !Z.ltb_lt. lia.
Qed.

(** Up to 2^53 a limit is taken by the store and written as it is. *)
Lemma safe_limit (n : Z) :
  Z.abs n <= 2 ^ 53 -> limit_accepted n = true /\ limit_literal n = n.
Proof.
  intros H. unfold limit_accepted, limit_literal.
  assert (H53 : 2 ^ 53 = 9007199254740992) by reflexivity.
  assert (H63 : 2 ^ 63 = 9223372036854775808) by reflexivity.
  rewrite H53 in *. rewrite H63. split.
  - apply andb_true_iff. split; apply Z.ltb_lt; lia.
  - destruct (Z.leb_spec (Z.abs n) 9007199254740992); [reflexivity|lia].
Qed.

Lemma truthy_true_cases (v : value) :
  truthy v = true -> exists k, v = Str k /\ k <> "".
Proof.
  destruct v as [|k]; simpl; [discriminate|].
  destruct (String.eqb_spec k ""); [discriminate|]. intros _. now exists k.
Qed.

(** The result mapping of [liked_posts] never touches the store. *)
Lemma mapM_post_str_id (rows : list (Like * option Post)) (s : db) :
  exists o,
    mapM (fun like : Like * option Post =>
            match snd like with
            | Some post => ret (post_str_id post)
            | None => throw TypeError
            end) rows s = (o, s, []).
Proof.
  induction rows as [|[l [p|]] rows [o IH]]; simpl.
  - now exists (inr []).
  - cbv [bind ret] in *. rewrite IH.
    destruct o as [e|ids]; eexists; reflexivity.
  - now exists (inl TypeError).
Qed.


Lemma liked_posts_db (u : string) (s : db) :
  exists r, liked_posts u s = (inr r, s, [SELECT likes_table]).
Proof.
  destruct (mapM_post_str_id (user_likes_query u s) s) as [o Ho].
  run_handler. cbv [ret throw] in Ho. rewrite Ho.
  destruct o; eexists; reflexivity.
Qed.

(** ** Every request is one of the transitions *)

Lemma handle_transition (r : request) (s : db) :
  transition s (db_after (handle r) s).
Proof.
  unfold db_after.
  destruct r as [a b|sid u|sid|sid u|v|u]; simpl handle.
  - destruct (truthy a) eqn:Ha;
      [|rewrite create_post_invalid by (now left); constructor].
    destruct (truthy b) eqn:Hb;
      [|rewrite create_post_invalid by (now right); constructor].
    apply truthy_true_cases in Ha, Hb.
    destruct Ha as [sid [-> Hs]], Hb as [c [-> Hc]].
    destruct (post_by_str_id sid s) as [p|] eqn:Hp.
    + rewrite (create_post_old _ _ _ p) by assumption. constructor.
    + rewrite create_post_new by assumption. now constructor.
  - destruct (post_by_str_id sid s) as [p|] eqn:Hp;
      [|rewrite like_post_not_found by assumption; constructor].
    destruct (truthy u) eqn:Hu;
      [|rewrite (like_post_no_user _ _ _ p) by assumption; constructor].
    apply truthy_true_cases in Hu. destruct Hu as [k [-> Hk]].
    destruct (like_by_user_post k (Post_id p) s) as [l|] eqn:Hl.
    + rewrite (like_post_already _ _ _ p l) by assumption. constructor.
    + rewrite (like_post_new _ _ _ p) by assumption.
      apply transition_like; [assumption|].
      apply Post_id_stored. now apply post_by_str_id_In in Hp.
  - destruct (post_by_str_id sid s) as [p|] eqn:Hp.
    + rewrite (get_likes_found _ _ p) by assumption. constructor.
    + rewrite get_likes_not_found by assumption. constructor.
  - destruct (post_by_str_id sid s) as [p|] eqn:Hp;
      [|rewrite unlike_post_not_found by assumption; constructor].
    destruct (truthy u) eqn:Hu;
      [|rewrite (unlike_post_no_user _ _ _ p) by assumption; constructor].
    apply truthy_true_cases in Hu. destruct Hu as [k [-> Hk]].
    rewrite (unlike_post_found _ _ _ p) by assumption. constructor.
  - destruct (limit_accepted (top_limit v)) eqn:Hv.
    + rewrite top_posts_eq by assumption. constructor.
    + destruct (top_posts_rejected v s Hv) as [e ->]. constructor.
  - destruct (liked_posts_db u s) as [r ->]. constructor.
Qed.

(** ** The transitions keep the invariants *)

Lemma NoDup_snoc {A} (l : list A) (x : A) :
  NoDup l -> ~ In x l -> NoDup (l ++ [x]).
Proof.
  intros Hl Hx. apply NoDup_rev in Hl. rewrite <- (rev_involutive (l ++ [x])).
  apply NoDup_rev. rewrite rev_app_distr. simpl. constructor; [|assumption].
  now rewrite <- in_rev.
Qed.

Lemma transition_likes_unique (s s' : db) :
  transition s s' -> likes_unique s -> likes_unique s'.
Proof.
  unfold likes_unique.
  intros [|sid c Hn|u pid Hn Hfk|u pid] H; simpl; try assumption.
  - rewrite map_app. simpl. apply NoDup_snoc; [assumption|].
    now apply like_by_user_post_absent.
  - now apply NoDup_map_filter.
Qed.

Lemma StronglySorted_lt_snoc (l : list Z) (x : Z) :
  StronglySorted Z.lt l -> Forall (fun y => y < x) l ->
  StronglySorted Z.lt (l ++ [x]).
Proof.
  induction 1 as [|y l Hl IH Hy]; intros Hx; simpl.
  - repeat constructor.
  - inversion Hx; subst. constructor; [now apply IH|].
    apply Forall_app. split; [assumption|]. now repeat constructor.
Qed.

Lemma transition_db_ok (s s' : db) :
  transition s s' -> db_ok s -> db_ok s'.
Proof.
  intros T [Hid Hseq Hstr Hun Hfk].
  pose proof (transition_likes_unique _ _ T Hun) as Hun'.
  destruct T as [|sid c Hn|u pid Hn Hex|u pid]; constructor; simpl;
    try assumption.
  - rewrite map_app. simpl. apply StronglySorted_lt_snoc; [assumption|].
    rewrite Forall_forall in *. intros y Hy.
    apply in_map_iff in Hy. destruct Hy as [p [<- Hp]].
    specialize (Hseq p Hp). simpl in Hseq. lia.
  - apply Forall_app. split.
    + eapply Forall_impl; [|exact Hseq]. simpl. intros; lia.
    + repeat constructor. simpl. lia.
  - rewrite map_app. simpl. apply NoDup_snoc; [assumption|].
    intros Hin. apply in_map_iff in Hin. destruct Hin as [p [E Hp]].
    apply (find_none _ _ Hn) in Hp. rewrite E, String.eqb_refl in Hp.
    discriminate.
  - eapply Forall_impl; [|exact Hfk]. simpl. intros l Hl.
    rewrite map_app. apply in_or_app. now left.
  - apply Forall_app. split; [assumption|]. repeat constructor. simpl.
    apply existsb_exists in Hex. destruct Hex as [p [Hp E]].
    apply Z.eqb_eq in E. subst. now apply in_map.
  - rewrite Forall_forall in *. intros l Hl. apply filter_In in Hl.
    apply Hfk. tauto.
Qed.

Lemma empty_db_ok : db_ok empty_db.
Proof. repeat constructor. Qed.

Lemma reachable_db_ok (s : db) : reachable s -> db_ok s.
Proof.
  induction 1 as [|s r _ IH]; [apply empty_db_ok|].
  eapply transition_db_ok; [apply handle_transition|assumption].
Qed.

Lemma reachable_serve (rs : list request) (s : db) :
  reachable s -> reachable (serve rs s).
Proof.
  revert s. induction rs as [|r rs IH]; intros s H; simpl; [assumption|].
  apply IH. now constructor.
Qed.

(** ** Looking rows up in a well-formed store *)

Lemma NoDup_map_inj {A B} (f : A -> B) (l : list A) (x y : A) :
  NoDup (map f l) -> In x l -> In y l -> f x = f y -> x = y.
Proof.
  induction l as [|z l IH]; simpl; intros Hnd Hx Hy E; [contradiction|].
  inversion Hnd as [|? ? Hz Hl]; subst.
  destruct Hx as [->|Hx], Hy as [->|Hy]; auto.
  - exfalso. apply Hz. rewrite E. now apply in_map.
  - exfalso. apply Hz. rewrite <- E. now apply in_map.
Qed.

Lemma post_by_str_id_stored (s : db) (p : Post) :
  db_ok s -> In p (posts s) -> post_by_str_id (post_str_id p) s = Some p.
Proof.
  intros Hok Hp.
  destruct (post_by_str_id (post_str_id p) s) as [q|] eqn:Hq.
  - apply post_by_str_id_In in Hq. destruct Hq as [Hq E].
    f_equal. eapply NoDup_map_inj; eauto. apply (ok_post_str_id _ Hok).
  - apply (find_none _ _ Hq) in Hp. now rewrite String.eqb_refl in Hp.
Qed.

Lemma like_matches_key (u : string) (pid : Z) (l : Like) :
  like_matches u pid l = true <-> like_key l = (u, pid).
Proof.
  unfold like_matches, like_key.
  rewrite andb_true_iff, String.eqb_eq, Z.eqb_eq.
  split; [intros [-> ->]; reflexivity|intros E; now inversion E].
Qed.

Lemma no_like_no_match (u : string) (pid : Z) (s : db) :
  ~ In (u, pid) (map like_key (likes s)) ->
  forall l, In l (likes s) -> like_matches u pid l = false.
Proof.
  intros H l Hl. destruct (like_matches u pid l) eqn:E; [|reflexivity].
  exfalso. apply H. apply like_matches_key in E. rewrite <- E.
  now apply in_map.
Qed.



(** ** Creating posts, liking and unliking *)







(** ** The unique index of likes *)

(** C7. The pair ([user_id_str], [PostId]) is unique among the like rows
    of the empty store, every request (create post, like, unlike and the
    three read endpoints) keeps it unique, and so it is unique in every
    state reachable by the requests of the service. *)
Theorem likes_unique_invariant :
  likes_unique empty_db
  /\ (forall s r, likes_unique s -> likes_unique (db_after (handle r) s))
  /\ (forall s, reachable s -> likes_unique s).
Proof.
  assert (Hstep : forall s r,
             likes_unique s -> likes_unique (db_after (handle r) s)).
  { intros s r. apply transition_likes_unique. apply handle_transition. }
  split; [constructor|]. split; [exact Hstep|].
  induction 1 as [|s r _ IH]; [constructor|]. now apply Hstep.
Qed.

Lemma likes_unique_invariant_witness :
  likes_unique liked_B_then_A_db
  /\ likes_unique (db_after (handle (POST_like "A" (Str "u"))) liked_B_then_A_db).
Proof.
  destruct likes_unique_invariant as [_ [Hstep Hreach]].
  assert (H : likes_unique liked_B_then_A_db).
  { apply Hreach. cbv [liked_B_then_A_db serve fold_left].
    repeat (first [exact reachable_start | refine (reachable_step _ _ _)]). }
  split; [exact H|]. apply Hstep. exact H.
Defined.

(** ** Counting likes *)



(** ** The ranking query *)

Lemma add_to_group_new (r : Post * option Like) (gs : list (Post * Z)) :
  (forall g, In g gs -> Post_id (fst g) <> Post_id (fst r)) ->
  add_to_group r gs = gs ++ [(fst r, count_Likes_id r)].
Proof.
  induction gs as [|[q n] gs IH]; intros H; simpl; [reflexivity|].
  destruct (Z.eqb_spec (Post_id q) (Post_id (fst r))) as [E|E].
  - exfalso. exact (H (q, n) (or_introl eq_refl) E).
  - f_equal. apply IH. intros g Hg. apply H. now right.
Qed.

Lemma add_to_group_last (r : Post * option Like) (gs : list (Post * Z))
      (p : Post) (n : Z) :
  (forall g, In g gs -> Post_id (fst g) <> Post_id p) ->
  Post_id (fst r) = Post_id p ->
  add_to_group r (gs ++ [(p, n)]) = gs ++ [(p, n + count_Likes_id r)].
Proof.
  intros H E. induction gs as [|[q m] gs IH]; simpl.
  - rewrite E, Z.eqb_refl. reflexivity.
  - destruct (Z.eqb_spec (Post_id q) (Post_id (fst r))) as [E'|E'].
    + exfalso. apply (H (q, m) (or_introl eq_refl)). simpl. congruence.
    + f_equal. apply IH. intros g Hg. apply H. now right.
Qed.

(** Folding the matching rows of one post into its group. *)
Lemma group_matching_rows (p : Post) (ms : list Like) (n : Z)
      (gs : list (Post * Z)) :
  (forall g, In g gs -> Post_id (fst g) <> Post_id p) ->
  fold_left (fun gs r => add_to_group r gs)
            (map (fun l => (p, Some l)) ms) (gs ++ [(p, n)])
  = gs ++ [(p, n + Z.of_nat (List.length ms))].
Proof.
  intros H. revert n. induction ms as [|m ms IH]; intros n.
  - simpl. now rewrite Z.add_0_r.
  - cbn [map fold_left]. rewrite add_to_group_last by auto.
    rewrite IH. cbn [count_Likes_id snd List.length]. do 3 f_equal. lia.
Qed.

(** The rows the join produces for one post make one group, counted by the
    number of likes of the post. *)
Lemma group_rows_of_post (p : Post) (ls : list Like) (gs : list (Post * Z)) :
  (forall g, In g gs -> Post_id (fst g) <> Post_id p) ->
  fold_left (fun gs r => add_to_group r gs)
            match filter (fun l => PostId l =? Post_id p) ls with
            | [] => [(p, None)]
            | ms => map (fun l => (p, Some l)) ms
            end gs
  = gs ++ [(p, Z.of_nat (List.length
                           (filter (fun l => PostId l =? Post_id p) ls)))].
Proof.
  intros H. destruct (filter _ ls) as [|m ms].
  - simpl. now apply add_to_group_new.
  - cbn [map fold_left]. rewrite add_to_group_new by auto.
    rewrite group_matching_rows by auto.
    cbn [count_Likes_id snd fst List.length]. do 3 f_equal. lia.
Qed.

Lemma group_by_join (ls : list Like) (ps : list Post) (gs : list (Post * Z)) :
  NoDup (map Post_id ps) ->
  (forall g p, In g gs -> In p ps -> Post_id (fst g) <> Post_id p) ->
  fold_left (fun gs r => add_to_group r gs) (left_outer_join ps ls) gs
  = gs ++ map (fun p =>
                 (p, Z.of_nat (List.length
                                 (filter (fun l => PostId l =? Post_id p) ls))))
              ps.
Proof.
  revert gs. induction ps as [|p ps IH]; intros gs Hnd Hgs.
  - simpl. now rewrite app_nil_r.
  - inversion Hnd as [|? ? Hp Hps]; subst.
    unfold left_outer_join. cbn [flat_map]. rewrite fold_left_app.
    rewrite group_rows_of_post by (intros g Hg; apply Hgs; [assumption|now left]).
    fold (left_outer_join ps ls). rewrite IH; [|assumption|].
    + now rewrite <- app_assoc.
    + intros g q Hg Hq. apply in_app_or in Hg. destruct Hg as [Hg|[<-|[]]].
      * apply Hgs; [assumption|now right].
      * simpl. intros E. apply Hp. rewrite E. now apply in_map.
Qed.

(** In a well-formed store the grouped join lists every post once, with the
    number of like rows it owns: a post without likes is kept, counted 0. *)
Lemma grouped_join_all_posts (s : db) :
  db_ok s ->
  map (fun r => (post_str_id (fst r), snd r))
      (group_by_Post_id (left_outer_join (posts s) (likes s)))
  = ranking_candidates s.
Proof.
  intros Hok. unfold group_by_Post_id, ranking_candidates.
  rewrite group_by_join.
  - simpl. rewrite map_map. reflexivity.
  - pose proof (ok_Post_id _ Hok) as H. revert H.
    generalize (map Post_id (posts s)). intros l.
    induction 1 as [|x l _ IH Hx]; constructor; auto.
    intros Hin. rewrite Forall_forall in Hx. specialize (Hx x Hin). lia.
  - intros g p [].
Qed.

Lemma StronglySorted_weaken {A} (R S : A -> A -> Prop) (l : list A) :
  (forall a b, R a b -> S a b) -> StronglySorted R l -> StronglySorted S l.
Proof.
  intros HRS. induction 1 as [|x l _ IH Hx]; constructor; auto.
  eapply Forall_impl; [|exact Hx]. auto.
Qed.

Lemma sql_limit_eq {A} (n : Z) (l : list A) :
  sql_limit n l = if n <? 0 then l else firstn (Z.to_nat n) l.
Proof.
  unfold sql_limit. destruct (n <? 0); [reflexivity|].
  destruct (Z.le_gt_cases n (Z.of_nat (List.length l))) as [H|H].
  - now rewrite Z.min_l.
  - rewrite Z.min_r, Nat2Z.id by lia.
    rewrite firstn_all. symmetry. apply firstn_all2. lia.
Qed.

Lemma sql_limit_map {A B} (f : A -> B) (n : Z) (l : list A) :
  map f (sql_limit n l) = sql_limit n (map f l).
Proof.
  rewrite !sql_limit_eq. destruct (n <? 0); [reflexivity|].
  symmetry. apply firstn_map.
Qed.

Lemma sql_limit_sorted {A} (R : A -> A -> Prop) (n : Z) (l : list A) :
  StronglySorted R l -> StronglySorted R (sql_limit n l).
Proof.
  rewrite !sql_limit_eq. destruct (n <? 0); [auto|apply StronglySorted_firstn].
Qed.

Lemma sql_limit_length {A} (n : Z) (l : list A) :
  0 <= n -> Z.of_nat (List.length (sql_limit n l)) <= n.
Proof.
  intros Hn. rewrite sql_limit_eq. destruct (Z.ltb_spec n 0); [lia|].
  pose proof (firstn_le_length (Z.to_nat n) l). lia.
Qed.

Lemma sql_limit_all {A} (n : Z) (l : list A) :
  n < 0 \/ Z.of_nat (List.length l) <= n -> sql_limit n l = l.
Proof.
  intros H. rewrite sql_limit_eq. destruct (Z.ltb_spec n 0); [reflexivity|].
  apply firstn_all2. lia.
Qed.

(** The answer of [GET /posts/top] before the limit is applied. *)
Lemma top_posts_ranked (v : value) (s : db) :
  limit_accepted (top_limit v) = true ->
  exists ranked,
    top_posts v s =
      (inr (res 200 (top_json (sql_limit (limit_literal (top_limit v)) ranked))),
       s, [SELECT posts_table])
    /\ StronglySorted like_count_desc ranked
    /\ (db_ok s -> Permutation ranked (ranking_candidates s)).
Proof.
  intros Hacc.
  exists (map (fun r => (post_str_id (fst r), snd r))
              (order_by_like_count_desc
                 (group_by_Post_id (left_outer_join (posts s) (likes s))))).
  split; [|split].
  - rewrite top_posts_eq by assumption. unfold top_query.
    now rewrite sql_limit_map.
  - apply StronglySorted_map. unfold order_by_like_count_desc.
    eapply StronglySorted_weaken; [|apply sort_by_sorted].
    + intros a b H. apply Z.leb_le in H. exact H.
    + intros a b H. apply Z.leb_gt in H. apply Z.leb_le. lia.
    + intros a b c H1 H2. apply Z.leb_le in H1, H2. apply Z.leb_le. lia.
  - intros Hok. rewrite <- (grouped_join_all_posts s Hok).
    apply Permutation_map. apply sort_by_perm.
Qed.

Lemma top_limit_cases (v : value) :
  top_limit v = match parseInt v with
                | Some n => if n =? 0 then 5 else n
                | None => 5
                end.
Proof.
  unfold top_limit, or_default. destruct (parseInt v) as [[|n|n]|]; reflexivity.
Qed.

(** C5, as the code has it. The limit in force of [GET /posts/top] is the
    parsed integer when that is not 0, and 5 when the parameter is absent,
    does not parse or parses to 0.  When it is a 64-bit integer the answer
    is 200 with pairs in descending order of [like_count], and when it lies
    between 0 and 2^53 the answer has at most that many pairs.  When it is
    not a 64-bit integer the store refuses the statement and the answer is
    500. *)
Theorem top_posts_sorted_and_bounded (s : db) (v : value) :
  top_limit v = match parseInt v with
                | Some n => if n =? 0 then 5 else n
                | None => 5
                end
  /\ (Z.abs (top_limit v) < 2 ^ 63 ->
      exists items,
        top_posts v s =
          (inr (res 200 (top_json items)), s, [SELECT posts_table])
        /\ StronglySorted like_count_desc items
        /\ (Z.abs (top_limit v) <= 2 ^ 53 ->
            top_limit v < 0 \/ Z.of_nat (List.length items) <= top_limit v))
  /\ (2 ^ 63 <= Z.abs (top_limit v) ->
      exists e,
        top_posts v s =
          (inr (res 500 (error_json "Internal server error"
                                    (Some (message e)))),
           s, [SELECT posts_table])).
Proof.
  assert (H63 : 2 ^ 63 = 9223372036854775808) by reflexivity.
  split; [apply top_limit_cases|]. split.
  - intros Hin.
    assert (Hacc : limit_accepted (top_limit v) = true).
    { unfold limit_accepted. rewrite H63 in *.
      apply andb_true_iff. split; apply Z.ltb_lt; lia. }
    destruct (top_posts_ranked v s Hacc) as [ranked [Heq [Hsorted _]]].
    exists (sql_limit (limit_literal (top_limit v)) ranked). repeat split.
    + exact Heq.
    + now apply sql_limit_sorted.
    + intros Hsafe. destruct (safe_limit _ Hsafe) as [_ ->].
      destruct (Z.ltb_spec (top_limit v) 0); [now left|right].
      now apply sql_limit_length.
  - intros Hout. apply top_posts_rejected.
    unfold limit_accepted. rewrite H63 in *.
    apply andb_false_iff.
    destruct (Z.ltb_spec (top_limit v) 9223372036854775808); [left|now right].
    apply Z.ltb_ge. lia.
Qed.

Lemma top_posts_sorted_and_bounded_witness :
  (exists items,
     top_posts (Str "2") likes_3_1_0_db =
       (inr (res 200 (top_json items)), likes_3_1_0_db, [SELECT posts_table])
     /\ StronglySorted like_count_desc items
     /\ (Z.abs (top_limit (Str "2")) <= 2 ^ 53 ->
         top_limit (Str "2") < 0
         \/ Z.of_nat (List.length items) <= top_limit (Str "2")))
  /\ exists e,
       top_posts (Str "99999999999999999999") likes_3_1_0_db =
         (inr (res 500 (error_json "Internal server error"
                                   (Some (message e)))),
          likes_3_1_0_db, [SELECT posts_table]).
Proof.
  split.
  - apply (proj1 (proj2 (top_posts_sorted_and_bounded
                           likes_3_1_0_db (Str "2")))).
    vm_compute. reflexivity.
  - apply (proj2 (proj2 (top_posts_sorted_and_bounded
                           likes_3_1_0_db (Str "99999999999999999999")))).
    vm_compute. discriminate.
Defined.

(** C5 as stated fails: with [limit=0] the parsed integer is 0, yet the
    answer on a store holding one post has one pair. *)
Lemma top_posts_limit_zero_not_empty :
  ~ (forall items,
       outcome (top_posts (Str "0")) one_post_db
       = inr (res 200 (top_json items)) ->
       Z.of_nat (List.length items) <= limit_as_specified (Str "0")).
Proof.
  intros H. specialize (H [("p1", 0)] eq_refl). vm_compute in H.
  now apply H.
Qed.

(** C10. A [limit] parameter that parses to 0 puts the default 5 in force:
    the answer is the one given when the parameter is absent, and holds 5
    pairs as soon as the store has 5 posts. *)
Theorem top_posts_limit_zero_is_default (s : db) (v : value) :
  reachable s -> parseInt v = Some 0 ->
  top_limit v = 5
  /\ top_posts v s = top_posts undefined s
  /\ exists items,
       outcome (top_posts v) s = inr (res 200 (top_json items))
       /\ List.length items = Nat.min 5 (List.length (posts s)).
Proof.
  intros Hr Hv.
  assert (H5 : top_limit v = 5) by (unfold top_limit; now rewrite Hv).
  split; [assumption|]. split.
  - unfold top_posts. rewrite H5. reflexivity.
  - assert (Hacc : limit_accepted (top_limit v) = true)
      by (rewrite H5; reflexivity).
    destruct (top_posts_ranked v s Hacc) as [ranked [Heq [_ Hperm]]].
    exists (sql_limit (limit_literal (top_limit v)) ranked). split.
    + unfold outcome. now rewrite Heq.
    + rewrite H5. change (limit_literal 5) with 5. rewrite sql_limit_eq.
      cbn [Z.ltb Z.compare].
      rewrite length_firstn.
      rewrite (Permutation_length (Hperm (reachable_db_ok _ Hr))).
      unfold ranking_candidates. now rewrite length_map.
Qed.

Lemma top_posts_limit_zero_is_default_witness :
  top_limit (Str "0") = 5
  /\ top_posts (Str "0") six_posts_db = top_posts undefined six_posts_db
  /\ exists items,
       outcome (top_posts (Str "0")) six_posts_db = inr (res 200 (top_json items))
       /\ List.length items = Nat.min 5 (List.length (posts six_posts_db)).
Proof.
  apply top_posts_limit_zero_is_default.
  - cbv [six_posts_db serve fold_left].
    repeat (first [exact reachable_start | refine (reachable_step _ _ _)]).
  - reflexivity.
Defined.

(** C6. In a reachable state every stored post is a candidate of the
    ranking, with the number of its likes as [like_count]: for a limit in
    force of at most 2^53 in absolute value the answer is the candidates in
    descending order of count, cut at the limit.  A post without likes is a
    candidate with count 0, and it is in the answer when the limit leaves
    room for all posts. *)
Theorem top_posts_keeps_posts_without_likes (s : db) (v : value) (p : Post) :
  reachable s -> In p (posts s) ->
  (forall l, In l (likes s) -> PostId l <> Post_id p) ->
  Z.abs (top_limit v) <= 2 ^ 53 ->
  exists ranked,
    Permutation ranked (ranking_candidates s)
    /\ StronglySorted like_count_desc ranked
    /\ In (post_str_id p, 0) ranked
    /\ top_posts v s =
         (inr (res 200 (top_json (sql_limit (top_limit v) ranked))), s,
          [SELECT posts_table])
    /\ (top_limit v < 0 \/ Z.of_nat (List.length (posts s)) <= top_limit v ->
        In (post_str_id p, 0) (sql_limit (top_limit v) ranked)).
Proof.
  intros Hr Hp Hno Hsafe. destruct (safe_limit _ Hsafe) as [Hacc Hlit].
  destruct (top_posts_ranked v s Hacc) as [ranked [Heq [Hsorted Hperm]]].
  rewrite Hlit in Heq.
  specialize (Hperm (reachable_db_ok _ Hr)).
  assert (Hin : In (post_str_id p, 0) ranked).
  { apply (Permutation_in _ (Permutation_sym Hperm)).
    unfold ranking_candidates. apply in_map_iff. exists p. split; [|assumption].
    f_equal. unfold count_likes_of. rewrite filter_none; [reflexivity|].
    intros l Hl. apply Z.eqb_neq. now apply Hno. }
  exists ranked. repeat split; try assumption.
  intros Hroom. rewrite sql_limit_all; [assumption|].
  rewrite (Permutation_length Hperm). unfold ranking_candidates.
  now rewrite length_map.
Qed.

Lemma top_posts_keeps_posts_without_likes_witness :
  exists ranked,
    Permutation ranked (ranking_candidates likes_3_1_0_db)
    /\ StronglySorted like_count_desc ranked
    /\ In ("C", 0) ranked
    /\ top_posts (Str "3") likes_3_1_0_db =
         (inr (res 200 (top_json (sql_limit (top_limit (Str "3")) ranked))),
          likes_3_1_0_db, [SELECT posts_table])
    /\ (top_limit (Str "3") < 0
        \/ Z.of_nat (List.length (posts likes_3_1_0_db)) <= top_limit (Str "3") ->
        In ("C", 0) (sql_limit (top_limit (Str "3")) ranked)).
Proof.
  apply (top_posts_keeps_posts_without_likes likes_3_1_0_db (Str "3")
           (mkPost 3 "C" "c")).
  - cbv [likes_3_1_0_db serve fold_left].
    repeat (first [exact reachable_start | refine (reachable_step _ _ _)]).
  - simpl. tauto.
  - intros l Hl. simpl in Hl.
    repeat (destruct Hl as [<-|Hl]; [discriminate|]). contradiction.
  - vm_compute. discriminate.
Defined.

(** The scenario of the specification: like counts 3, 1 and 0 and [limit=2]
    give exactly two pairs, the highest first; without a limit the post with
    no like closes the ranking. *)
Example top_2_of_3_1_0 :
  outcome (top_posts (Str "2")) likes_3_1_0_db
  = inr (res 200 (top_json [("A", 3); ("B", 1)]))
  /\ outcome (top_posts undefined) likes_3_1_0_db
  = inr (res 200 (top_json [("A", 3); ("B", 1); ("C", 0)])).
Proof. split; reflexivity. Qed.

(** ** The posts a user liked *)









(** The scenario of the specification: a user who liked A and then C is
    answered A, C, and a user who liked nothing the empty sequence. *)
Example liked_A_and_C :
  outcome (liked_posts "u") liked_A_and_C_db
  = inr (res 200 (liked_json ["A"; "C"]))
  /\ outcome (liked_posts "w") liked_A_and_C_db
  = inr (res 200 (liked_json [])).
Proof. split; reflexivity. Qed.

(** ** Missing body fields *)




(** * Further properties of the handlers *)

(** Split on the branch a request takes and replace the handler by its
    answer on that branch. *)
Ltac request_cases r s :=
  let a0 := fresh "a" in let b0 := fresh "b" in
  let sid0 := fresh "sid" in let u0 := fresh "u" in
  let v0 := fresh "v" in let k0 := fresh "k" in let c0 := fresh "c" in
  let p0 := fresh "p" in let l0 := fresh "l" in
  let Ha := fresh "Ha" in let Hb := fresh "Hb" in
  let Hk := fresh "Hk" in let Hc := fresh "Hc" in
  let Hp := fresh "Hp" in let Hu := fresh "Hu" in let Hl := fresh "Hl" in
  let Hv := fresh "Hv" in let e0 := fresh "e" in
  destruct r as [a0 b0|sid0 u0|sid0|sid0 u0|v0|u0]; cbn [handle];
  [ destruct (truthy a0) eqn:Ha;
    [ destruct (truthy b0) eqn:Hb;
      [ apply truthy_true_cases in Ha; apply truthy_true_cases in Hb;
        destruct Ha as [k0 [-> Hk]]; destruct Hb as [c0 [-> Hc]];
        destruct (post_by_str_id k0 s) as [p0|] eqn:Hp;
        [ rewrite (create_post_old k0 c0 s p0 Hk Hc Hp)
        | rewrite (create_post_new k0 c0 s Hk Hc Hp) ]
      | rewrite (create_post_invalid a0 b0 s (or_intror Hb)) ]
    | rewrite (create_post_invalid a0 b0 s (or_introl Ha)) ]
  | destruct (post_by_str_id sid0 s) as [p0|] eqn:Hp;
    [ destruct (truthy u0) eqn:Hu;
      [ apply truthy_true_cases in Hu; destruct Hu as [k0 [-> Hk]];
        destruct (like_by_user_post k0 (Post_id p0) s) as [l0|] eqn:Hl;
        [ rewrite (like_post_already sid0 k0 s p0 l0 Hp Hk Hl)
        | rewrite (like_post_new sid0 k0 s p0 Hp Hk Hl) ]
      | rewrite (like_post_no_user sid0 u0 s p0 Hp Hu) ]
    | rewrite (like_post_not_found sid0 u0 s Hp) ]
  | destruct (post_by_str_id sid0 s) as [p0|] eqn:Hp;
    [ rewrite (get_likes_found sid0 s p0 Hp)
    | rewrite (get_likes_not_found sid0 s Hp) ]
  | destruct (post_by_str_id sid0 s) as [p0|] eqn:Hp;
    [ destruct (truthy u0) eqn:Hu;
      [ apply truthy_true_cases in Hu; destruct Hu as [k0 [-> Hk]];
        rewrite (unlike_post_found sid0 k0 s p0 Hp Hk)
      | rewrite (unlike_post_no_user sid0 u0 s p0 Hp Hu) ]
    | rewrite (unlike_post_not_found sid0 u0 s Hp) ]
  | destruct (limit_accepted (top_limit v0)) eqn:Hv;
    [ rewrite (top_posts_eq v0 s Hv)
    | destruct (top_posts_rejected v0 s Hv) as [e0 ->] ]
  | idtac ].


(** ** Status codes *)



(** ** What a request changes *)

Lemma liked_posts_answer (u : string) (s : db) :
  exists r,
    liked_posts u s = (inr r, s, [SELECT likes_table])
    /\ ((exists items, r = res 200 (liked_json items))
        \/ exists e, r = res 500 (error_json "Internal server error"
                                             (Some (message e)))).
Proof.
  destruct (mapM_post_str_id (user_likes_query u s) s) as [o Ho].
  run_handler. cbv [ret throw] in Ho. rewrite Ho.
  destruct o as [e|items]; eexists; (split; [reflexivity|]);
    [right; now exists e|left; now exists items].
Qed.

Lemma filter_negb_all {A} (f : A -> bool) (l : list A) :
  filter f l = [] -> filter (fun x => negb (f x)) l = l.
Proof.
  induction l as [|x l IH]; simpl; [reflexivity|].
  destruct (f x); [discriminate|]. intros H. simpl. f_equal. auto.
Qed.

(** X2. The answer tells what happened to the store, in any state: with
    status 201 exactly one row was appended to exactly one table; with the
    body "unliked" like rows were removed and nothing else changed; with any
    other answer the database is the one the request found. *)
Theorem answer_tells_the_change (s : db) (r : request) :
  exists resp,
    outcome (handle r) s = inr resp
    /\ let s' := db_after (handle r) s in
       (status resp = 201
        /\ ((exists p, posts s' = posts s ++ [p] /\ likes s' = likes s)
            \/ (exists l, likes s' = likes s ++ [l] /\ posts s' = posts s)))
       \/ (body resp = status_json "unliked"
           /\ posts s' = posts s
           /\ (List.length (likes s') < List.length (likes s))%nat
           /\ forall l, In l (likes s') -> In l (likes s))
       \/ (s' = s /\ status resp <> 201
           /\ body resp <> status_json "unliked").
Proof.
  unfold outcome, db_after. request_cases r s;
    try (eexists; split; [reflexivity|]; cbn;
         right; right; repeat split; discriminate).
  - eexists; split; [reflexivity|]. cbn. left. split; [reflexivity|].
    left. eexists. split; reflexivity.
  - eexists; split; [reflexivity|]. cbn. left. split; [reflexivity|].
    right. eexists. split; reflexivity.
  - eexists; split; [reflexivity|]. cbn.
    match goal with
    | |- context [filter (like_matches ?k ?pid) (likes s)] =>
        destruct (filter (like_matches k pid) (likes s)) as [|m ms] eqn:E;
        pose proof (filter_length (like_matches k pid) (likes s)) as Hlen
    end.
    + right. right. rewrite (filter_negb_all _ _ E). cbn.
      repeat split; try discriminate. now destruct s.
    + right. left. cbn. rewrite E in Hlen. cbn in Hlen.
      repeat split; [lia|]. intros l Hl. apply filter_In in Hl. tauto.
  - match goal with
    | u : string |- _ =>
        destruct (liked_posts_answer u s) as [resp [-> [[items ->]|[e ->]]]]
    end; eexists; (split; [reflexivity|]); cbn;
      right; right; repeat split; discriminate.
Qed.



(** ** Posts are never changed *)

Lemma find_app_some {A} (f : A -> bool) (l l' : list A) (x : A) :
  find f l = Some x -> find f (l ++ l') = Some x.
Proof.
  induction l as [|y l IH]; simpl; [discriminate|].
  destruct (f y); auto.
Qed.

Lemma transition_posts (s s' : db) :
  transition s s' -> exists extra, posts s' = posts s ++ extra.
Proof.
  intros [|sid c _|u pid _ _|u pid]; simpl;
    try (exists []; now rewrite app_nil_r).
  eexists. reflexivity.
Qed.

Lemma serve_posts (rs : list request) (s : db) :
  exists extra, posts (serve rs s) = posts s ++ extra.
Proof.
  revert s. induction rs as [|r rs IH]; intros s; simpl.
  - exists []. now rewrite app_nil_r.
  - destruct (IH (db_after (handle r) s)) as [e2 H2].
    destruct (transition_posts _ _ (handle_transition r s)) as [e1 H1].
    exists (e1 ++ e2). fold (serve rs (db_after (handle r) s)).
    now rewrite H2, H1, app_assoc.
Qed.

(** X4. No sequence of requests updates or deletes a post: the rows of
    [posts] stay in place, new rows only come after them, and a post found
    under a string id is found under it, with the same key and content,
    after any further requests. *)
Theorem posts_are_kept (s : db) (rs : list request) (sid : string) (p : Post) :
  post_by_str_id sid s = Some p ->
  (exists extra, posts (serve rs s) = posts s ++ extra)
  /\ post_by_str_id sid (serve rs s) = Some p.
Proof.
  intros Hp. destruct (serve_posts rs s) as [extra He].
  split; [now exists extra|].
  unfold post_by_str_id in *. rewrite He. now apply find_app_some.
Qed.

Lemma posts_are_kept_witness :
  (exists extra,
     posts (serve [POST_posts (Str "p1") (Str "again");
                   POST_posts (Str "p2") (Str "more");
                   POST_like "p1" (Str "u")] one_post_db)
     = posts one_post_db ++ extra)
  /\ post_by_str_id "p1"
       (serve [POST_posts (Str "p1") (Str "again");
               POST_posts (Str "p2") (Str "more");
               POST_like "p1" (Str "u")] one_post_db)
     = Some (mkPost 1 "p1" "hello").
Proof.
  apply posts_are_kept. reflexivity.
Defined.

(** ** Liking and unliking *)

Lemma StronglySorted_lt_NoDup (l : list Z) :
  StronglySorted Z.lt l -> NoDup l.
Proof.
  induction 1 as [|x l _ IH Hx]; constructor; auto.
  intros Hin. rewrite Forall_forall in Hx. specialize (Hx x Hin). lia.
Qed.

Lemma Post_id_inj (s : db) (p q : Post) :
  db_ok s -> In p (posts s) -> In q (posts s) -> Post_id p = Post_id q -> p = q.
Proof.
  intros Hok. apply NoDup_map_inj. apply StronglySorted_lt_NoDup.
  apply (ok_Post_id _ Hok).
Qed.

Lemma filter_filter_weak {A} (f g : A -> bool) (l : list A) :
  (forall x, f x = true -> g x = true) -> filter f (filter g l) = filter f l.
Proof.
  intros H. induction l as [|x l IH]; simpl; [reflexivity|].
  destruct (g x) eqn:Eg; simpl.
  - now rewrite IH.
  - destruct (f x) eqn:Ef; [|assumption]. rewrite (H x Ef) in Eg. discriminate.
Qed.

(** Under the unique index, deleting the like of a user on a post takes
    exactly one row off the likes of that post. *)
Lemma count_after_delete (u : string) (pid : Z) (ls : list Like) :
  NoDup (map like_key ls) -> In (u, pid) (map like_key ls) ->
  Z.of_nat (List.length
              (filter (fun l => PostId l =? pid)
                      (filter (fun l => negb (like_matches u pid l)) ls)))
  = Z.of_nat (List.length (filter (fun l => PostId l =? pid) ls)) - 1.
Proof.
  induction ls as [|x ls IH]; simpl; intros Hnd Hin; [contradiction|].
  inversion Hnd as [|? ? Hx Hls]; subst.
  destruct (like_matches u pid x) eqn:Em.
  - pose proof Em as Ek. apply like_matches_key in Ek.
    assert (Ep : PostId x = pid) by (unfold like_key in Ek; congruence).
    subst pid. rewrite Z.eqb_refl. cbn [negb].
    rewrite (filter_all (fun l => negb (like_matches u (PostId x) l)) ls).
    + cbn [List.length]. lia.
    + intros l Hl. destruct (like_matches u (PostId x) l) eqn:El; [|reflexivity].
      exfalso. apply Hx. apply like_matches_key in El. rewrite Ek, <- El.
      now apply in_map.
  - cbn [negb filter].
    destruct Hin as [Hin|Hin].
    + apply like_matches_key in Hin. congruence.
    + specialize (IH Hls Hin).
      destruct (PostId x =? pid); cbn [List.length]; lia.
Qed.



(** X6. Unliking a post the user holds a like on is answered 200 "unliked":
    the like is gone, the like count of the post is one less, the posts are
    untouched, and unliking again is answered "not_liked_previously" without
    any further change. *)
Theorem unlike_removes_the_like (s : db) (p : Post) (u : string) :
  reachable s -> In p (posts s) -> u <> "" ->
  In (u, Post_id p) (map like_key (likes s)) ->
  exists s1,
    unlike_post (post_str_id p) (Str u) s =
      (inr (res 200 (status_json "unliked")), s1,
       [SELECT posts_table; DELETE likes_table])
    /\ posts s1 = posts s
    /\ ~ In (u, Post_id p) (map like_key (likes s1))
    /\ count_likes_of (Post_id p) s1 = count_likes_of (Post_id p) s - 1
    /\ unlike_post (post_str_id p) (Str u) s1 =
      (inr (res 200 (status_json "not_liked_previously")), s1,
       [SELECT posts_table; DELETE likes_table]).
Proof.
  intros Hr Hp Hu Hin. pose proof (reachable_db_ok _ Hr) as Hok.
  pose proof (post_by_str_id_stored s p Hok Hp) as Hfind.
  set (s1 := mkDb (posts s)
                  (filter (fun l => negb (like_matches u (Post_id p) l)) (likes s))
                  (posts_seq s) (likes_seq s)).
  assert (Hgone : ~ In (u, Post_id p) (map like_key (likes s1))).
  { intros H. apply in_map_iff in H. destruct H as [l [E Hl]].
    apply filter_In in Hl. destruct Hl as [_ Hl].
    apply like_matches_key in E. now rewrite E in Hl. }
  exists s1. repeat split; try assumption.
  - rewrite (unlike_post_found _ _ _ p Hfind Hu). fold s1.
    destruct (filter (like_matches u (Post_id p)) (likes s)) as [|m ms] eqn:E;
      [|reflexivity].
    exfalso. apply in_map_iff in Hin. destruct Hin as [l [Ek Hl]].
    apply like_matches_key in Ek.
    assert (Hf : In l (filter (like_matches u (Post_id p)) (likes s)))
      by (apply filter_In; auto).
    now rewrite E in Hf.
  - unfold count_likes_of. cbn [likes s1].
    apply count_after_delete; [apply (ok_likes_unique _ Hok)|assumption].
  - assert (Hfind1 : post_by_str_id (post_str_id p) s1 = Some p) by exact Hfind.
    pose proof (no_like_no_match _ _ _ Hgone) as Hno.
    rewrite (unlike_post_found _ _ _ p Hfind1 Hu).
    rewrite (filter_none _ _ Hno). cbn [List.length Z.of_nat Z.eqb].
    rewrite filter_all by (intros l Hl; now rewrite (Hno l Hl)).
    reflexivity.
Qed.

Lemma unlike_removes_the_like_witness :
  exists s1,
    unlike_post "A" (Str "u") liked_B_then_A_db =
      (inr (res 200 (status_json "unliked")), s1,
       [SELECT posts_table; DELETE likes_table])
    /\ posts s1 = posts liked_B_then_A_db
    /\ ~ In ("u", 1) (map like_key (likes s1))
    /\ count_likes_of 1 s1 = count_likes_of 1 liked_B_then_A_db - 1
    /\ unlike_post "A" (Str "u") s1 =
      (inr (res 200 (status_json "not_liked_previously")), s1,
       [SELECT posts_table; DELETE likes_table]).
Proof.
  apply (unlike_removes_the_like liked_B_then_A_db (mkPost 1 "A" "first") "u").
  - cbv [liked_B_then_A_db serve fold_left].
    repeat (first [exact reachable_start | refine (reachable_step _ _ _)]).
  - simpl. now left.
  - discriminate.
  - simpl. tauto.
Defined.

Lemma filter_snoc_other {A} (f : A -> bool) (l : list A) (x : A) :
  f x = false -> filter f (l ++ [x]) = filter f l.
Proof.
  intros H. rewrite filter_app. simpl. rewrite H. apply app_nil_r.
Qed.

(** A like or unlike request on post [p] with body [u] leaves alone every
    selection of like rows that does not select the pair ([u], [p]). *)
Lemma like_unlike_frame (s : db) (p : Post) (u : value) (f : Like -> bool) :
  post_by_str_id (post_str_id p) s = Some p ->
  (forall l, f l = true -> Str (user_id_str l) = u -> PostId l <> Post_id p) ->
  (posts (db_after (like_post (post_str_id p) u) s) = posts s
   /\ filter f (likes (db_after (like_post (post_str_id p) u) s))
      = filter f (likes s))
  /\ (posts (db_after (unlike_post (post_str_id p) u) s) = posts s
      /\ filter f (likes (db_after (unlike_post (post_str_id p) u) s))
         = filter f (likes s)).
Proof.
  intros Hfind Hf. unfold db_after.
  destruct (truthy u) eqn:Hu.
  - apply truthy_true_cases in Hu. destruct Hu as [k [-> Hk]].
    assert (Hother : forall l, like_matches k (Post_id p) l = true -> f l = false).
    { intros l Hl. apply like_matches_key in Hl. unfold like_key in Hl.
      destruct (f l) eqn:E; [|reflexivity]. exfalso.
      apply (Hf l E); congruence. }
    split.
    + destruct (like_by_user_post k (Post_id p) s) as [l|] eqn:Hl.
      * now rewrite (like_post_already _ _ _ p l Hfind Hk Hl).
      * rewrite (like_post_new _ _ _ p Hfind Hk Hl). cbn.
        split; [reflexivity|].
        apply filter_snoc_other. apply Hother. apply like_matches_key.
        reflexivity.
    + rewrite (unlike_post_found _ _ _ p Hfind Hk). cbn.
      split; [reflexivity|].
      apply filter_filter_weak. intros l Hl.
      destruct (like_matches k (Post_id p) l) eqn:E; [|reflexivity].
      rewrite (Hother l E) in Hl. discriminate.
  - rewrite (like_post_no_user _ _ _ p Hfind Hu).
    rewrite (unlike_post_no_user _ _ _ p Hfind Hu). now repeat split.
Qed.

(** X7. A like or unlike request on a stored post whose [user_id_str] is a
    string, or is absent, touches the likes of that one user on that one
    post only: whatever the answer, the posts are as before, every other
    post keeps its like count and every other user keeps the like rows they
    had.  (A body carrying an array or another non-string value is not a
    request of this model and is not covered.) *)
Theorem like_unlike_touch_one_pair (s : db) (p : Post) (u : value) (r : request) :
  reachable s -> In p (posts s) ->
  r = POST_like (post_str_id p) u \/ r = DELETE_like (post_str_id p) u ->
  posts (db_after (handle r) s) = posts s
  /\ (forall q, In q (posts s) -> q <> p ->
        count_likes_of (Post_id q) (db_after (handle r) s)
        = count_likes_of (Post_id q) s)
  /\ (forall u', Str u' <> u ->
        likes_in_insertion_order u' (db_after (handle r) s)
        = likes_in_insertion_order u' s).
Proof.
  intros Hr Hp Hreq. pose proof (reachable_db_ok _ Hr) as Hok.
  pose proof (post_by_str_id_stored s p Hok Hp) as Hfind.
  assert (Hposts : posts (db_after (handle r) s) = posts s).
  { destruct (like_unlike_frame s p u (fun _ => false) Hfind) as [[H1 _] [H2 _]];
      [discriminate|].
    destruct Hreq as [-> | ->]; cbn [handle]; assumption. }
  split; [exact Hposts|].
  split.
  - intros q Hq Hqp. unfold count_likes_of.
    assert (Hf : forall l, (PostId l =? Post_id q) = true ->
                           Str (user_id_str l) = u -> PostId l <> Post_id p).
    { intros l Hl _ E. apply Z.eqb_eq in Hl. apply Hqp.
      apply (Post_id_inj s q p Hok Hq Hp). congruence. }
    destruct (like_unlike_frame s p u _ Hfind Hf) as [[_ H1] [_ H2]].
    destruct Hreq as [-> | ->]; cbn [handle]; [now rewrite H1|now rewrite H2].
  - intros u' Hu'. unfold likes_in_insertion_order.
    assert (Hf : forall l, (user_id_str l =? u')%string = true ->
                           Str (user_id_str l) = u -> PostId l <> Post_id p).
    { intros l Hl E _. apply String.eqb_eq in Hl. apply Hu'. congruence. }
    destruct (like_unlike_frame s p u _ Hfind Hf) as [[_ H1] [_ H2]].
    destruct Hreq as [-> | ->]; cbn [handle]; [exact H1|exact H2].
Qed.

Lemma like_unlike_touch_one_pair_witness :
  posts (db_after (handle (DELETE_like "A" (Str "u1"))) likes_3_1_0_db)
  = posts likes_3_1_0_db
  /\ (forall q, In q (posts likes_3_1_0_db) -> q <> mkPost 1 "A" "a" ->
        count_likes_of (Post_id q)
          (db_after (handle (DELETE_like "A" (Str "u1"))) likes_3_1_0_db)
        = count_likes_of (Post_id q) likes_3_1_0_db)
  /\ (forall u', Str u' <> Str "u1" ->
        likes_in_insertion_order u'
          (db_after (handle (DELETE_like "A" (Str "u1"))) likes_3_1_0_db)
        = likes_in_insertion_order u' likes_3_1_0_db).
Proof.
  apply (like_unlike_touch_one_pair likes_3_1_0_db (mkPost 1 "A" "a")
           (Str "u1") (DELETE_like "A" (Str "u1"))).
  - cbv [likes_3_1_0_db serve fold_left].
    repeat (first [exact reachable_start | refine (reachable_step _ _ _)]).
  - simpl. now left.
  - right. reflexivity.
Defined.

(** ** The ranking and the other endpoints *)

Lemma In_sql_limit {A} (n : Z) (l : list A) (x : A) :
  In x (sql_limit n l) -> In x l.
Proof.
  rewrite !sql_limit_eq. destruct (n <? 0); [auto|apply In_firstn].
Qed.

Lemma NoDup_sql_limit {A} (n : Z) (l : list A) :
  NoDup l -> NoDup (sql_limit n l).
Proof.
  rewrite !sql_limit_eq. destruct (n <? 0); [auto|]. intros H.
  rewrite <- (firstn_skipn (Z.to_nat n) l) in H.
  now apply NoDup_app_remove_r in H.
Qed.

Lemma sql_limit_nil_iff {A} (n : Z) (l : list A) :
  n <> 0 -> (sql_limit n l = [] <-> l = []).
Proof.
  intros Hn. rewrite sql_limit_eq. destruct (Z.ltb_spec n 0); [tauto|].
  destruct (Z.to_nat n) as [|k] eqn:E; [lia|].
  destruct l; simpl; split; intros H'; (reflexivity || discriminate).
Qed.

Lemma top_limit_not_0 (v : value) : top_limit v <> 0.
Proof.
  rewrite top_limit_cases. destruct (parseInt v) as [n|]; [|discriminate].
  destruct (Z.eqb_spec n 0); [discriminate|assumption].
Qed.

(** X8. In a reachable state a ranking request whose limit in force is a
    64-bit integer is answered 200 with a ranking that agrees with the count
    endpoint: no post is listed twice, and every pair listed names a stored
    post together with the like count that [GET /posts/:post_str_id/likes]
    answers for it. *)
Theorem top_posts_agrees_with_count (s : db) (v : value) :
  reachable s -> Z.abs (top_limit v) < 2 ^ 63 ->
  exists items,
    outcome (top_posts v) s = inr (res 200 (top_json items))
    /\ NoDup (map fst items)
    /\ forall sid n,
         In (sid, n) items ->
         get_likes sid s =
           (inr (res 200 (count_json sid n)), s,
            [SELECT posts_table; SELECT likes_table]).
Proof.
  intros Hr Hin64. pose proof (reachable_db_ok _ Hr) as Hok.
  apply limit_accepted_iff in Hin64.
  destruct (top_posts_ranked v s Hin64) as [ranked [Heq [_ Hperm]]].
  specialize (Hperm Hok).
  exists (sql_limit (limit_literal (top_limit v)) ranked). repeat split.
  - unfold outcome. now rewrite Heq.
  - rewrite sql_limit_map. apply NoDup_sql_limit.
    apply (Permutation_NoDup (Permutation_map fst (Permutation_sym Hperm))).
    unfold ranking_candidates. rewrite map_map. cbn [fst].
    apply (ok_post_str_id _ Hok).
  - intros sid n Hin. apply In_sql_limit in Hin.
    apply (Permutation_in _ Hperm) in Hin.
    unfold ranking_candidates in Hin. apply in_map_iff in Hin.
    destruct Hin as [p [E Hp]]. inversion E; subst.
    apply (get_likes_found _ _ p). now apply post_by_str_id_stored.
Qed.

Lemma top_posts_agrees_with_count_witness :
  exists items,
    outcome (top_posts (Str "2")) likes_3_1_0_db
    = inr (res 200 (top_json items))
    /\ NoDup (map fst items)
    /\ forall sid n,
         In (sid, n) items ->
         get_likes sid likes_3_1_0_db =
           (inr (res 200 (count_json sid n)), likes_3_1_0_db,
            [SELECT posts_table; SELECT likes_table]).
Proof.
  apply top_posts_agrees_with_count.
  - cbv [likes_3_1_0_db serve fold_left].
    repeat (first [exact reachable_start | refine (reachable_step _ _ _)]).
  - vm_compute. reflexivity.
Defined.

(** X9. The limit handed to the store is never 0, so in a reachable state a
    ranking request whose limit in force is at most 2^53 in absolute value
    is answered the empty ranking only when no post is stored. *)
Theorem top_posts_empty_iff_no_posts (s : db) (v : value) :
  reachable s -> Z.abs (top_limit v) <= 2 ^ 53 ->
  top_limit v <> 0
  /\ exists items,
       outcome (top_posts v) s = inr (res 200 (top_json items))
       /\ (items = [] <-> posts s = []).
Proof.
  intros Hr Hsafe. pose proof (reachable_db_ok _ Hr) as Hok.
  destruct (safe_limit _ Hsafe) as [Hacc Hlit].
  split; [apply top_limit_not_0|].
  destruct (top_posts_ranked v s Hacc) as [ranked [Heq [_ Hperm]]].
  rewrite Hlit in Heq. specialize (Hperm Hok).
  exists (sql_limit (top_limit v) ranked). split.
  - unfold outcome. now rewrite Heq.
  - rewrite (sql_limit_nil_iff _ _ (top_limit_not_0 v)).
    pose proof (Permutation_length Hperm) as Hlen.
    unfold ranking_candidates in Hlen. rewrite length_map in Hlen.
    split; intros H.
    + rewrite H in Hlen. now destruct (posts s).
    + rewrite H in Hlen. now destruct ranked.
Qed.

Lemma top_posts_empty_iff_no_posts_witness :
  top_limit (Str "0") <> 0
  /\ exists items,
       outcome (top_posts (Str "0")) one_post_db = inr (res 200 (top_json items))
       /\ (items = [] <-> posts one_post_db = []).
Proof.
  apply top_posts_empty_iff_no_posts.
  - exact (reachable_step _ _ reachable_start).
  - vm_compute. discriminate.
Defined.

(** ** The liked posts of a user *)










(** ** Surrogate keys *)

Lemma keys_in_order_snoc (keys : list Z) (seq : Z) :
  keys_in_order keys seq -> keys_in_order (keys ++ [seq + 1]) (seq + 1).
Proof.
  intros [H0 [Hs Hb]]. repeat split.
  - lia.
  - apply StronglySorted_lt_snoc; [assumption|].
    eapply Forall_impl; [|exact Hb]. simpl. intros; lia.
  - apply Forall_app. split.
    + eapply Forall_impl; [|exact Hb]. simpl. intros; lia.
    + repeat constructor; lia.
Qed.

Lemma keys_in_order_filter {A} (key : A -> Z) (f : A -> bool) (l : list A)
      (seq : Z) :
  keys_in_order (map key l) seq -> keys_in_order (map key (filter f l)) seq.
Proof.
  intros [H0 [Hs Hb]]. split; [assumption|].
  induction l as [|x l IH]; simpl in *; [auto|].
  inversion Hs as [|? ? Hs' Hx]; inversion Hb as [|? ? Hbx Hb']; subst.
  destruct (IH Hs' Hb') as [IH1 IH2].
  destruct (f x); simpl; [|auto]. split; constructor; auto.
  rewrite Forall_forall in *. intros k Hk. apply Hx.
  apply in_map_iff in Hk. destruct Hk as [y [<- Hy]].
  apply filter_In in Hy. apply in_map. tauto.
Qed.

Lemma transition_keys (s s' : db) :
  transition s s' ->
  keys_in_order (map Post_id (posts s)) (posts_seq s)
  /\ keys_in_order (map Likes_id (likes s)) (likes_seq s) ->
  keys_in_order (map Post_id (posts s')) (posts_seq s')
  /\ keys_in_order (map Likes_id (likes s')) (likes_seq s').
Proof.
  intros [|sid c _|u pid _ _|u pid] [Hp Hl]; simpl; split; try assumption.
  - rewrite map_app. now apply keys_in_order_snoc.
  - rewrite map_app. now apply keys_in_order_snoc.
  - now apply keys_in_order_filter.
Qed.

(** A row found after a transition was there before or carries a key above
    the counter the transition started from; the counters do not go back. *)
Lemma transition_rows (s s' : db) :
  transition s s' ->
  posts_seq s <= posts_seq s' /\ likes_seq s <= likes_seq s'
  /\ (forall p, In p (posts s') -> In p (posts s) \/ posts_seq s < Post_id p)
  /\ (forall l, In l (likes s') -> In l (likes s) \/ likes_seq s < Likes_id l).
Proof.
  intros [|sid c _|u pid _ _|u pid]; simpl; repeat split; try lia; auto.
  - intros p Hp. apply in_app_or in Hp. destruct Hp as [Hp|[<-|[]]]; auto.
    right. simpl. lia.
  - intros l Hl. apply in_app_or in Hl. destruct Hl as [Hl|[<-|[]]]; auto.
    right. simpl. lia.
  - intros l Hl. apply filter_In in Hl. tauto.
Qed.

Lemma serve_rows (rs : list request) (s : db) :
  posts_seq s <= posts_seq (serve rs s)
  /\ likes_seq s <= likes_seq (serve rs s)
  /\ (forall p, In p (posts (serve rs s)) ->
        In p (posts s) \/ posts_seq s < Post_id p)
  /\ (forall l, In l (likes (serve rs s)) ->
        In l (likes s) \/ likes_seq s < Likes_id l).
Proof.
  revert s. induction rs as [|r rs IH]; intros s.
  - simpl. repeat split; auto; lia.
  - change (serve (r :: rs) s) with (serve rs (db_after (handle r) s)).
    destruct (IH (db_after (handle r) s)) as [I1 [I2 [I3 I4]]].
    destruct (transition_rows _ _ (handle_transition r s)) as [T1 [T2 [T3 T4]]].
    repeat split; try lia.
    + intros p Hp. destruct (I3 p Hp) as [H|H]; [|right; lia].
      destruct (T3 p H); auto.
    + intros l Hl. destruct (I4 l Hl) as [H|H]; [|right; lia].
      destruct (T4 l H); auto.
Qed.

(** X12. Surrogate keys are handed out in increasing order and never again:
    in a reachable state the keys of each table are strictly increasing in
    row order and lie between 1 and the counter of the table, and after any
    further requests a row is either one of the rows of now or carries a key
    above the counter of now, so the key of a deleted like is not reused. *)
Theorem keys_are_never_reused (s : db) (rs : list request) :
  reachable s ->
  keys_in_order (map Post_id (posts s)) (posts_seq s)
  /\ keys_in_order (map Likes_id (likes s)) (likes_seq s)
  /\ (forall p, In p (posts (serve rs s)) ->
        In p (posts s) \/ posts_seq s < Post_id p)
  /\ (forall l, In l (likes (serve rs s)) ->
        In l (likes s) \/ likes_seq s < Likes_id l).
Proof.
  intros Hr.
  assert (Hk : keys_in_order (map Post_id (posts s)) (posts_seq s)
               /\ keys_in_order (map Likes_id (likes s)) (likes_seq s)).
  { induction Hr as [|s r _ IH].
    - simpl. split; (split; [lia|split; constructor]).
    - eapply transition_keys; [apply handle_transition|assumption]. }
  destruct Hk as [Hk1 Hk2].
  destruct (serve_rows rs s) as [_ [_ [H3 H4]]]. auto.
Qed.

Lemma keys_are_never_reused_witness :
  keys_in_order (map Post_id (posts liked_B_then_A_db))
                (posts_seq liked_B_then_A_db)
  /\ keys_in_order (map Likes_id (likes liked_B_then_A_db))
                   (likes_seq liked_B_then_A_db)
  /\ (forall p,
        In p (posts (serve [DELETE_like "A" (Str "u"); POST_like "A" (Str "u")]
                           liked_B_then_A_db)) ->
        In p (posts liked_B_then_A_db)
        \/ posts_seq liked_B_then_A_db < Post_id p)
  /\ (forall l,
        In l (likes (serve [DELETE_like "A" (Str "u"); POST_like "A" (Str "u")]
                           liked_B_then_A_db)) ->
        In l (likes liked_B_then_A_db)
        \/ likes_seq liked_B_then_A_db < Likes_id l).
Proof.
  apply keys_are_never_reused.
  cbv [liked_B_then_A_db serve fold_left].
  repeat (first [exact reachable_start | refine (reachable_step _ _ _)]).
Defined.

(** ** What is stored *)

Lemma handle_strings_not_empty (r : request) (s : db) :
  strings_not_empty s -> strings_not_empty (db_after (handle r) s).
Proof.
  intros [Hp Hl]. unfold db_after, strings_not_empty.
  request_cases r s; cbn; try (split; assumption).
  - split; [|assumption]. apply Forall_app. split; [assumption|].
    repeat constructor; assumption.
  - split; [assumption|]. apply Forall_app. split; [assumption|].
    repeat constructor; assumption.
  - split; [assumption|]. rewrite Forall_forall in *. intros l Hin.
    apply filter_In in Hin. apply Hl. tauto.
  - match goal with
    | u : string |- _ => destruct (liked_posts_db u s) as [resp ->]
    end. cbn. now split.
Qed.

(** X13. What every reachable state stores: no two posts share a
    [post_str_id], no post has an empty [post_str_id] or [content], no like
    has an empty [user_id_str], and every like belongs to a stored post. *)
Theorem reachable_store_integrity (s : db) :
  reachable s ->
  NoDup (map post_str_id (posts s))
  /\ Forall (fun p => post_str_id p <> "" /\ content p <> "") (posts s)
  /\ Forall (fun l => user_id_str l <> ""
                      /\ exists p, In p (posts s) /\ Post_id p = PostId l)
            (likes s).
Proof.
  intros Hr. pose proof (reachable_db_ok _ Hr) as Hok.
  assert (Hne : strings_not_empty s).
  { induction Hr as [|s r Hr IH].
    - split; constructor.
    - apply handle_strings_not_empty. apply IH. now apply reachable_db_ok. }
  destruct Hne as [Hp Hl]. split; [apply (ok_post_str_id _ Hok)|].
  split; [assumption|].
  pose proof (ok_foreign_key _ Hok) as Hfk.
  rewrite Forall_forall in *. intros l Hin. split; [now apply Hl|].
  specialize (Hfk l Hin). apply in_map_iff in Hfk.
  destruct Hfk as [p [E Hpin]]. now exists p.
Qed.

Lemma reachable_store_integrity_witness :
  NoDup (map post_str_id (posts likes_3_1_0_db))
  /\ Forall (fun p => post_str_id p <> "" /\ content p <> "")
            (posts likes_3_1_0_db)
  /\ Forall (fun l => user_id_str l <> ""
                      /\ exists p, In p (posts likes_3_1_0_db)
                                   /\ Post_id p = PostId l)
            (likes likes_3_1_0_db).
Proof.
  apply reachable_store_integrity.
  cbv [likes_3_1_0_db serve fold_left].
  repeat (first [exact reachable_start | refine (reachable_step _ _ _)]).
Defined.

(** ** The statements sent to the store *)

(** X14. What a request sends to the store, in any state: an INSERT exactly
    when the answer is 201, so the find-or-create never attempts an insert
    that the store rejects; a DELETE only for the unlike route; nothing at
    all exactly when a create-post request is answered 400. *)
Theorem statements_sent (s : db) (r : request) :
  exists resp,
    outcome (handle r) s = inr resp
    /\ ((exists t, In (INSERT t) (accesses (handle r) s)) <-> status resp = 201)
    /\ ((exists t, In (DELETE t) (accesses (handle r) s)) ->
        exists sid u, r = DELETE_like sid u)
    /\ (accesses (handle r) s = [] <->
        (exists a b, r = POST_posts a b) /\ status resp = 400).
Proof.
  unfold outcome, accesses.
  assert (Hliked : forall u,
             exists resp, liked_posts u s = (inr resp, s, [SELECT likes_table])
                          /\ status resp <> 201).
  { intros u. destruct (liked_posts_answer u s) as [resp [E [[i ->]|[e ->]]]];
      eexists; (split; [exact E|discriminate]). }
  request_cases r s;
    try match goal with
        | u : string |- context [liked_posts ?u s] =>
            destruct (Hliked u) as [resp [-> Hne]]
        end;
    (eexists; split; [reflexivity|]); cbn;
    (split; [split; [intros [t Ht]; simpl in Ht;
                     repeat (destruct Ht as [Ht|Ht]; [discriminate Ht|]);
                     try contradiction; try reflexivity
                    |intros Hst; try discriminate Hst; try contradiction;
                     eexists; simpl; eauto]
            |split; [intros [t Ht]; simpl in Ht;
                     repeat (destruct Ht as [Ht|Ht]; [discriminate Ht|]);
                     try contradiction; eauto
                    |split; [intros Hw; try discriminate Hw; eauto
                            |intros [[a' [b' Hr]] Hst];
                             try discriminate Hr; try discriminate Hst;
                             try reflexivity]]]).
Qed.

(** ** Every like is counted once *)

Lemma sum_permutation (l l' : list Z) :
  Permutation l l' -> fold_right Z.add 0 l = fold_right Z.add 0 l'.
Proof.
  induction 1; simpl; lia.
Qed.

Lemma count_one_post (ps : list Post) (pid : Z) :
  NoDup (map Post_id ps) -> In pid (map Post_id ps) ->
  fold_right Z.add 0
    (map (fun p => if pid =? Post_id p then 1 else 0) ps) = 1.
Proof.
  induction ps as [|p ps IH]; simpl; intros Hnd Hin; [contradiction|].
  inversion Hnd as [|? ? Hp Hps]; subst.
  destruct (Z.eqb_spec pid (Post_id p)) as [E|E].
  - subst pid.
    assert (H0 : fold_right Z.add 0
                   (map (fun q => if Post_id p =? Post_id q then 1 else 0) ps) = 0).
    { clear IH Hnd Hps Hin. induction ps as [|q ps IH]; simpl; [reflexivity|].
      destruct (Z.eqb_spec (Post_id p) (Post_id q)) as [E|E].
      - exfalso. apply Hp. left. auto.
      - rewrite IH; [reflexivity|]. intros H. apply Hp. now right. }
    lia.
  - destruct Hin as [Hin|Hin]; [congruence|]. rewrite IH; auto.
Qed.

Lemma sum_of_counts (ps : list Post) (ls : list Like) :
  NoDup (map Post_id ps) ->
  Forall (fun l => In (PostId l) (map Post_id ps)) ls ->
  fold_right Z.add 0
    (map (fun p => Z.of_nat (List.length
                               (filter (fun l => PostId l =? Post_id p) ls)))
         ps)
  = Z.of_nat (List.length ls).
Proof.
  intros Hnd. induction 1 as [|l ls Hl _ IH].
  - clear Hnd. induction ps as [|p ps IHp]; simpl in *; lia.
  - assert (Hsplit :
      fold_right Z.add 0
        (map (fun p => Z.of_nat (List.length
                (filter (fun l' => PostId l' =? Post_id p) (l :: ls)))) ps)
      = fold_right Z.add 0
          (map (fun p => Z.of_nat (List.length
                  (filter (fun l' => PostId l' =? Post_id p) ls))) ps)
        + fold_right Z.add 0
            (map (fun p => if PostId l =? Post_id p then 1 else 0) ps)).
    { clear. induction ps as [|p ps IHp]; [reflexivity|].
      cbn [map fold_right]. rewrite IHp. cbn [filter].
      destruct (PostId l =? Post_id p); cbn [List.length]; lia. }
    rewrite Hsplit, IH, (count_one_post ps (PostId l) Hnd Hl).
    cbn [List.length]. lia.
Qed.

(** X15. In a reachable state every like is counted for exactly one post:
    for a limit in force of at most 2^53 in absolute value that is negative
    or leaves room for all posts, the like counts of the ranking add up to
    the number of like rows. *)
Theorem top_posts_counts_every_like (s : db) (v : value) :
  reachable s -> Z.abs (top_limit v) <= 2 ^ 53 ->
  top_limit v < 0 \/ Z.of_nat (List.length (posts s)) <= top_limit v ->
  exists items,
    outcome (top_posts v) s = inr (res 200 (top_json items))
    /\ fold_right Z.add 0 (map snd items) = Z.of_nat (List.length (likes s)).
Proof.
  intros Hr Hsafe Hroom. pose proof (reachable_db_ok _ Hr) as Hok.
  destruct (safe_limit _ Hsafe) as [Hacc Hlit].
  destruct (top_posts_ranked v s Hacc) as [ranked [Heq [_ Hperm]]].
  rewrite Hlit in Heq. specialize (Hperm Hok).
  exists (sql_limit (top_limit v) ranked). split.
  - unfold outcome. now rewrite Heq.
  - rewrite sql_limit_all.
    + rewrite (sum_permutation _ _ (Permutation_map snd Hperm)).
      unfold ranking_candidates. rewrite map_map. cbn [snd].
      apply sum_of_counts.
      * apply StronglySorted_lt_NoDup. apply (ok_Post_id _ Hok).
      * apply (ok_foreign_key _ Hok).
    + rewrite (Permutation_length Hperm). unfold ranking_candidates.
      now rewrite length_map.
Qed.

Lemma top_posts_counts_every_like_witness :
  exists items,
    outcome (top_posts (Str "10")) likes_3_1_0_db
    = inr (res 200 (top_json items))
    /\ fold_right Z.add 0 (map snd items)
       = Z.of_nat (List.length (likes likes_3_1_0_db)).
Proof.
  apply top_posts_counts_every_like.
  - cbv [likes_3_1_0_db serve fold_left].
    repeat (first [exact reachable_start | refine (reachable_step _ _ _)]).
  - vm_compute. discriminate.
  - right. vm_compute. discriminate.
Defined.
